(** * The Calico Neutron agent: reconciliation loop and interface configurator

    A shallow embedding of [calico/agent/calico_neutron_agent.py]: the
    [CalicoManager] methods that program and remove per-interface host state,
    and the [CalicoNeutronAgentRPC] polling loop that diffs the observed tap
    devices against the last known set.

    The host (process execution, [os.listdir]) and the Neutron plugin (the RPC
    calls, the security-group filters) are collaborators of the agent: they are
    an interface [env] over an abstract world [W], and every operation is a
    computation that threads the world, records the calls it makes, and ends by
    returning, by raising an exception, or by exiting the process. *)

From Stdlib Require Import String Ascii ZArith List Bool.
From stdpp Require Import base strings list gmap.
Import ListNotations.
Open Scope string_scope.
Open Scope list_scope.

(** ** Data *)

(** One entry of a port's [fixed_ips] list. *)
Record ip_data := { ip_address : string; subnet_id : string }.

(** What a finished child process leaves behind. *)
Record completed := { stdout : string; stderr : string; returncode : Z }.

(** One call of [utils.execute]: the command line, whether it runs through the
    root helper, and whether a non-zero exit status raises. *)
Record command := { argv : list string; root_helper : bool; check_exit_code : bool }.

(** The dict answered by [get_device_details]. A key read with [d[k]] that is
    absent raises [KeyError]; ['port_id'] is tested with [in] and
    ['network_type'], ['segmentation_id'] are read with [.get]. *)
Record details := {
  d_port_id : option string;
  d_admin_state_up : option bool;
  d_network_type : option string;
  d_segmentation_id : option string;
  d_network_id : option string;
  d_physical_network : option string;
  d_fixed_ips : option (list ip_data);
  d_mac_address : option string }.

(** The dict answered by [update_device_down]; the loop reads ['exists']. *)
Record down_details := { d_exists : option bool }.

(** The delta dict built by [update_devices]. *)
Record device_info := {
  current : gset string;
  added : gset string;
  removed : gset string }.

(** The local variables [sync] and [devices] of [daemon_loop]. *)
Record loop_state := { sync : bool; devices : gset string }.

(** What the agent does to its surroundings, in program order. *)
Inductive event :=
| Execute (c : command)
| Warn (msg : string) (args : list string)
| Listdir (path : string)
| CallAddStaticRoute (tap : string) (fixed_ips : list ip_data) (mac : string)
| CallRemoveStaticRoute (tap : string) (fixed_ips : list ip_data) (mac : string)
| PrepareDevicesFilter (devs : gset string)
| RemoveDevicesFilter (devs : gset string)
| GetDeviceDetails (dev : string)
| UpdateDeviceUp (dev : string)
| UpdateDeviceDown (dev : string).

(** How a computation ends: normally, with an exception that [except
    Exception] catches, or with [sys.exit] ([SystemExit] is no [Exception]). *)
Inductive outcome (A : Type) :=
| Returned (a : A)
| Raised
| Exited.
Arguments Returned {A} a.
Arguments Raised {A}.
Arguments Exited {A}.

(** The collaborators. An RPC or a filter call answers [None] when it raises
    (a timeout included); [listdir] answers [None] when the directory cannot
    be read. [iteration_order] is the order in which a [for] loop visits a
    Python set: it is no property of the program, so it is any order at
    all, one that may differ from one loop to the next, and all that is
    known of it is that it visits every member once. *)
Record env (W : Type) := {
  run_process : command -> W -> completed * W;
  valid_ipv6 : string -> bool;
  listdir : string -> W -> option (list string) * W;
  get_device_details : string -> W -> option details * W;
  update_device_up : string -> W -> option unit * W;
  update_device_down : string -> W -> option down_details * W;
  prepare_devices_filter : gset string -> W -> option unit * W;
  remove_devices_filter : gset string -> W -> option unit * W;
  iteration_order : gset string -> W -> list string;
  iteration_order_visits_all :
    forall (devs : gset string) (w : W), iteration_order devs w ≡ₚ elements devs }.
Arguments run_process {W} _ _ _.
Arguments valid_ipv6 {W} _ _.
Arguments listdir {W} _ _ _.
Arguments get_device_details {W} _ _ _.
Arguments update_device_up {W} _ _ _.
Arguments update_device_down {W} _ _ _.
Arguments prepare_devices_filter {W} _ _ _.
Arguments remove_devices_filter {W} _ _ _.
Arguments iteration_order {W} _ _ _.
Arguments iteration_order_visits_all {W} _ _ _.

(** ** Computations *)

Definition M (W A : Type) : Type := W -> outcome A * W * list event.

Definition ret {W A} (a : A) : M W A := fun w => (Returned a, w, []).

Definition bind {W A B} (m : M W A) (f : A -> M W B) : M W B :=
  fun w =>
    match m w with
    | (Returned a, w1, t1) =>
        match f a w1 with (r, w2, t2) => (r, w2, t1 ++ t2) end
    | (Raised, w1, t1) => (Raised, w1, t1)
    | (Exited, w1, t1) => (Exited, w1, t1)
    end.

Definition raise {W A} : M W A := fun w => (Raised, w, []).

Definition sys_exit {W A} : M W A := fun w => (Exited, w, []).

Definition emit {W} (e : event) : M W unit := fun w => (Returned tt, w, [e]).

(** [try: m  except Exception: ...]: the handler's case is [None]. *)
Definition attempt {W A} (m : M W A) : M W (option A) :=
  fun w =>
    match m w with
    | (Returned a, w1, t1) => (Returned (Some a), w1, t1)
    | (Raised, w1, t1) => (Returned None, w1, t1)
    | (Exited, w1, t1) => (Exited, w1, t1)
    end.

(** [d[k]] on a dict: [KeyError] when the key is absent. *)
Definition key {W A} (o : option A) : M W A :=
  match o with Some a => ret a | None => raise end.

(** A call of a collaborator that may raise. *)
Definition call {W A} (e : event) (f : W -> option A * W) : M W A :=
  fun w =>
    match f w with
    | (Some a, w1) => (Returned a, w1, [e])
    | (None, w1) => (Raised, w1, [e])
    end.

Declare Scope agent_scope.
Delimit Scope agent_scope with agent.
Notation "x <- m ;; k" := (bind m (fun x => k))
  (at level 100, m at next level, right associativity) : agent_scope.
Notation "m ;;; k" := (bind m (fun _ => k))
  (at level 100, right associativity) : agent_scope.
Open Scope agent_scope.

Definition outcome_of {W A} (r : outcome A * W * list event) : outcome A := r.1.1.
Definition world_of {W A} (r : outcome A * W * list event) : W := r.1.2.
Definition trace_of {W A} (r : outcome A * W * list event) : list event := r.2.

(** A result with the events [t] in front of its own. *)
Definition prepend {W A} (t : list event) (r : outcome A * W * list event)
    : outcome A * W * list event :=
  (r.1.1, r.1.2, t ++ r.2).

(** The commands a trace executed, in order. *)
Definition executed (t : list event) : list command :=
  omap (fun e => match e with Execute c => Some c | _ => None end) t.

(** A trace with the records of the configurator's entry points left out. *)
Definition is_call (e : event) : bool :=
  match e with
  | CallAddStaticRoute _ _ _ | CallRemoveStaticRoute _ _ _ => true
  | _ => false
  end.

Definition effects (t : list event) : list event :=
  List.filter (fun e => negb (is_call e)) t.

(** ** Strings *)

(** Python's [needle in hay] on strings. *)
Fixpoint contains (needle hay : string) : bool :=
  String.prefix needle hay ||
  match hay with
  | EmptyString => false
  | String _ hay' => contains needle hay'
  end.

Definition is_empty (s : string) : bool :=
  match s with EmptyString => true | String _ _ => false end.

Definition TAP_INTERFACE_PREFIX : string := "tap".
Definition TAP_FS : string := "/sys/devices/virtual/net/".

(** ** CalicoManager *)

Section Manager.
Context {W : Type} (E : env W).

(** [utils.execute] of [neutron.agent.linux]: runs the command and returns
    its output and error streams; with [check_exit_code] (the default) a
    non-zero exit status raises [RuntimeError]. *)
Definition execute (c : command) : M W (string * string) :=
  fun w =>
    match run_process E c w with
    | (p, w1) =>
        if negb (returncode p =? 0)%Z && check_exit_code c
        then (Raised, w1, [Execute c])
        else (Returned (stdout p, stderr p), w1, [Execute c])
    end.

Definition get_tap_device_name (interface_id : string) : string :=
  TAP_INTERFACE_PREFIX +:+ substring 0 11 interface_id.

Definition route_add_cmd (ip tap : string) : command :=
  {| argv := ["ip"; "route"; "add"; ip; "dev"; tap; "proto"; "static"];
     root_helper := true; check_exit_code := false |}.

Definition neigh_add_cmd (ip mac tap : string) : command :=
  {| argv := ["ip"; "-6"; "neigh"; "add"; ip; "lladdr"; mac; "dev"; tap];
     root_helper := true; check_exit_code := true |}.

Definition enable_proxy_arp_cmd (tap : string) : command :=
  {| argv := ["neutron-enable-proxy-arp"; tap];
     root_helper := true; check_exit_code := true |}.

Definition arp_add_cmd (ip mac : string) : command :=
  {| argv := ["arp"; "-s"; ip; mac];
     root_helper := true; check_exit_code := true |}.

Definition enable_local_routing_cmd (tap : string) : command :=
  {| argv := ["neutron-enable-local-routing"; tap];
     root_helper := true; check_exit_code := true |}.

Definition route_del_cmd (ip tap : string) : command :=
  {| argv := ["ip"; "route"; "del"; ip; "dev"; tap; "proto"; "static"];
     root_helper := true; check_exit_code := false |}.

Definition disable_proxy_arp_cmd (tap : string) : command :=
  {| argv := ["neutron-disable-proxy-arp"; tap];
     root_helper := true; check_exit_code := true |}.

Definition disable_local_routing_cmd (tap : string) : command :=
  {| argv := ["neutron-disable-local-routing"; tap];
     root_helper := false; check_exit_code := true |}.

Definition arp_del_cmd (ip tap : string) : command :=
  {| argv := ["arp"; "-d"; ip; "-i"; tap];
     root_helper := true; check_exit_code := false |}.

(** The body of the [for ip_data in fixed_ips] loop of [add_static_route],
    with [result] as the loop carries it. *)
Fixpoint add_static_route_loop (tap_device_name mac_address : string)
    (fixed_ips : list ip_data) (result : bool) : M W bool :=
  match fixed_ips with
  | [] => ret result
  | ip_data :: rest =>
      let ip := ip_address ip_data in
      route <- execute (route_add_cmd ip tap_device_name) ;;
      let result := result && (is_empty route.2 || contains "File exists" route.2) in
      result <-
        (if valid_ipv6 E ip then
           execute (neigh_add_cmd ip mac_address tap_device_name) ;;;
           ret result
         else
           proxy_arp <- execute (enable_proxy_arp_cmd tap_device_name) ;;
           let result := result && contains "Enabled proxy arp" proxy_arp.1 in
           execute (arp_add_cmd ip mac_address) ;;;
           ret result) ;;
      local_routing <- execute (enable_local_routing_cmd tap_device_name) ;;
      let result := result && contains "Enabled local routing" local_routing.1 in
      add_static_route_loop tap_device_name mac_address rest result
  end.

Definition add_static_route (tap_device_name : string)
    (fixed_ips : list ip_data) (mac_address : string) : M W bool :=
  emit (CallAddStaticRoute tap_device_name fixed_ips mac_address) ;;;
  add_static_route_loop tap_device_name mac_address fixed_ips true.

(** The loop of [remove_static_route]; [mac_address] is not used. *)
Fixpoint remove_static_route_loop (tap_device_name : string)
    (fixed_ips : list ip_data) : M W bool :=
  match fixed_ips with
  | [] => ret true
  | ip_data :: rest =>
      let ip := ip_address ip_data in
      route <- execute (route_del_cmd ip tap_device_name) ;;
      (if is_empty route.2 then ret tt
       else emit (Warn "Unable to remove route for %s via %s" [ip; tap_device_name])) ;;;
      execute (disable_proxy_arp_cmd tap_device_name) ;;;
      execute (disable_local_routing_cmd tap_device_name) ;;;
      arp <- execute (arp_del_cmd ip tap_device_name) ;;
      (if is_empty arp.2 then ret tt
       else emit (Warn "ARP entry missing for %s" [ip])) ;;;
      remove_static_route_loop tap_device_name rest
  end.

Definition remove_static_route (tap_device_name : string)
    (fixed_ips : list ip_data) (mac_address : string) : M W bool :=
  emit (CallRemoveStaticRoute tap_device_name fixed_ips mac_address) ;;;
  remove_static_route_loop tap_device_name fixed_ips.

Definition add_interface (network_id : string) (network_type : option string)
    (physical_network : string) (segmentation_id : option string)
    (port_id : string) (fixed_ips : list ip_data) (mac_address : string) : M W bool :=
  add_static_route (get_tap_device_name port_id) fixed_ips mac_address.

Definition remove_interface (network_id : string) (network_type : option string)
    (physical_network : option string) (segmentation_id : option string)
    (port_id : string) (fixed_ips : list ip_data) (mac_address : string) : M W bool :=
  remove_static_route (get_tap_device_name port_id) fixed_ips mac_address.

(** [get_tap_devices]: the entries of [TAP_FS] that start with the prefix,
    as a set. *)
Definition get_tap_devices : M W (gset string) :=
  names <- call (Listdir TAP_FS) (listdir E TAP_FS) ;;
  ret (list_to_set (List.filter (String.prefix TAP_INTERFACE_PREFIX) names)).

(** Lines 243 to 249 of [update_devices]: [None] when nothing changed. *)
Definition device_delta (devices registered_devices : gset string) : option device_info :=
  if decide (devices = registered_devices) then None
  else Some {| current := devices;
               added := devices ∖ registered_devices;
               removed := registered_devices ∖ devices |}.

Definition update_devices (registered_devices : gset string) : M W (option device_info) :=
  devices <- get_tap_devices ;;
  ret (device_delta devices registered_devices).

End Manager.

(** ** CalicoNeutronAgentRPC *)

Section Agent.
Context {W : Type} (E : env W).

(** Truth value of the result of [details.get('network_type')]. *)
Definition truthy (s : option string) : bool :=
  match s with Some s => negb (is_empty s) | None => false end.

(** The part of the loop body of [treat_devices_added] that follows a
    successful [get_device_details]. *)
Definition configure_added_device (device : string) (d : details) : M W unit :=
  match d_port_id d with
  | Some port_id =>
      admin_state_up <- key (d_admin_state_up d) ;;
      if admin_state_up : bool then
        let network_type := d_network_type d in
        segmentation_id <-
          (if truthy network_type then ret (d_segmentation_id d) else sys_exit) ;;
        network_id <- key (d_network_id d) ;;
        physical_network <- key (d_physical_network d) ;;
        fixed_ips <- key (d_fixed_ips d) ;;
        mac_address <- key (d_mac_address d) ;;
        ok <- add_interface E network_id network_type physical_network
                segmentation_id port_id fixed_ips mac_address ;;
        if ok : bool then
          call (UpdateDeviceUp device) (update_device_up E device)
        else
          call (UpdateDeviceDown device) (update_device_down E device) ;;;
          ret tt
      else ret tt
  | None => ret tt
  end.

(** The members of a set in the order in which a [for] loop visits them. *)
Definition iterate (devs : gset string) : M W (list string) :=
  fun w => (Returned (iteration_order E devs w), w, []).

(** The [for device in devices] loop of [treat_devices_added]; [devs] is the
    set in the order the iteration visits it. *)
Fixpoint treat_devices_added_loop (devs : list string) (resync : bool) : M W bool :=
  match devs with
  | [] => ret resync
  | device :: rest =>
      r <- attempt (call (GetDeviceDetails device) (get_device_details E device)) ;;
      match r with
      | None => treat_devices_added_loop rest true
      | Some d =>
          configure_added_device device d ;;;
          treat_devices_added_loop rest resync
      end
  end.

Definition treat_devices_added (devs : gset string) : M W bool :=
  call (PrepareDevicesFilter devs) (prepare_devices_filter E devs) ;;;
  visited <- iterate devs ;;
  treat_devices_added_loop visited false.

(** The loop of [treat_devices_removed]. The read of ['exists'] stands in the
    [else] branch of the [try], outside what the [except] covers. *)
Fixpoint treat_devices_removed_loop (devs : list string) (resync : bool) : M W bool :=
  match devs with
  | [] => ret resync
  | device :: rest =>
      r <- attempt (call (UpdateDeviceDown device) (update_device_down E device)) ;;
      match r with
      | None => treat_devices_removed_loop rest true
      | Some d =>
          key (d_exists d) ;;;
          treat_devices_removed_loop rest resync
      end
  end.

Definition treat_devices_removed (devs : gset string) : M W bool :=
  call (RemoveDevicesFilter devs) (remove_devices_filter E devs) ;;;
  visited <- iterate devs ;;
  treat_devices_removed_loop visited false.

(** [process_network_devices]: the dict built by [update_devices] always has
    the keys ['added'] and ['removed']. *)
Definition process_network_devices (di : device_info) : M W bool :=
  resync_a <- treat_devices_added (added di) ;;
  resync_b <- treat_devices_removed (removed di) ;;
  ret (resync_a || resync_b).

(** Lines 519 to 522 of [daemon_loop]. *)
Definition resync_clear (st : loop_state) : loop_state :=
  if sync st then {| sync := false; devices := ∅ |} else st.

(** One iteration of the [while True] of [daemon_loop], the pacing by
    [time.sleep] apart. *)
Definition daemon_loop_iteration (st : loop_state) : M W loop_state :=
  let st := resync_clear st in
  r <- attempt (update_devices E (devices st)) ;;
  match r with
  | None => ret {| sync := true; devices := devices st |}
  | Some None => ret st
  | Some (Some di) =>
      p <- attempt (process_network_devices di) ;;
      match p with
      | Some resync => ret {| sync := resync; devices := current di |}
      | None => ret {| sync := true; devices := devices st |}
      end
  end.

(** The first [n] iterations of [daemon_loop]: it starts with [sync] set
    and no known device, and its [while True] has no last iteration. *)
Fixpoint daemon_loop_from (n : nat) (st : loop_state) : M W loop_state :=
  match n with
  | O => ret st
  | S n' =>
      st' <- daemon_loop_iteration st ;;
      daemon_loop_from n' st'
  end.

Definition daemon_loop (n : nat) : M W loop_state :=
  daemon_loop_from n {| sync := true; devices := ∅ |}.

(** ** Sub-operations, read declaratively *)

(** A sub-operation is a command with the test that tells whether what it
    left behind counts as success. *)
Definition sub_operation : Type := command * (completed -> bool).

Definition exit_zero (p : completed) : bool := (returncode p =? 0)%Z.

Definition route_added (p : completed) : bool :=
  is_empty (stderr p) || contains "File exists" (stderr p).

(** Runs the sub-operations in order and tells whether every one succeeded. *)
Fixpoint all_succeed (ops : list sub_operation) (w : W) : bool :=
  match ops with
  | [] => true
  | (c, ok) :: ops' =>
      match run_process E c w with
      | (p, w1) => ok p && all_succeed ops' w1
      end
  end.

(** The sub-operations of one binding as [add_static_route] runs and judges
    them. *)
Definition add_sub_operations (tap mac : string) (d : ip_data) : list sub_operation :=
  let ip := ip_address d in
  [(route_add_cmd ip tap, route_added)] ++
  (if valid_ipv6 E ip then [(neigh_add_cmd ip mac tap, exit_zero)]
   else [(enable_proxy_arp_cmd tap,
           fun p => exit_zero p && contains "Enabled proxy arp" (stdout p));
         (arp_add_cmd ip mac, exit_zero)]) ++
  [(enable_local_routing_cmd tap,
     fun p => exit_zero p && contains "Enabled local routing" (stdout p))].

(** The sub-operations of one binding as the specification lists them: the
    route add, the IPv6 neighbour add, the proxy-ARP enable and the
    local-routing enable, each with the success condition stated there. *)
Definition spec_add_sub_operations (tap mac : string) (d : ip_data) : list sub_operation :=
  let ip := ip_address d in
  [(route_add_cmd ip tap, route_added)] ++
  (if valid_ipv6 E ip then [(neigh_add_cmd ip mac tap, exit_zero)]
   else [(enable_proxy_arp_cmd tap,
           fun p => contains "Enabled proxy arp" (stdout p))]) ++
  [(enable_local_routing_cmd tap,
     fun p => contains "Enabled local routing" (stdout p))].

(** The cleanup steps of one binding as [remove_static_route] runs them: the
    two deletions are never judged, the two helpers must exit with zero. *)
Definition remove_sub_operations (tap : string) (d : ip_data) : list sub_operation :=
  let ip := ip_address d in
  [(route_del_cmd ip tap, fun _ => true);
   (disable_proxy_arp_cmd tap, exit_zero);
   (disable_local_routing_cmd tap, exit_zero);
   (arp_del_cmd ip tap, fun _ => true)].

(** The cleanup steps of one binding, each with the warning that
    [remove_static_route] logs after it when the command left text on its
    error stream: the two deletions have one, the two helpers have none. *)
Definition remove_steps (tap : string) (d : ip_data) : list (command * option event) :=
  let ip := ip_address d in
  [(route_del_cmd ip tap,
     Some (Warn "Unable to remove route for %s via %s" [ip; tap]));
   (disable_proxy_arp_cmd tap, None);
   (disable_local_routing_cmd tap, None);
   (arp_del_cmd ip tap, Some (Warn "ARP entry missing for %s" [ip]))].

(** The warning of a step, logged when the error stream is not empty. *)
Definition warning_if_stderr (warning : option event) (p : completed) : list event :=
  match warning with
  | Some e => if is_empty (stderr p) then [] else [e]
  | None => []
  end.

(** What running such steps in order leaves behind: every step runs its
    command; a checked command that exits with a status other than zero
    ends the run there; any other command is followed by its warning, if
    it has one to log, and by the next step. *)
Fixpoint run_steps (steps : list (command * option event)) (w : W) : list event :=
  match steps with
  | [] => []
  | (c, warning) :: rest =>
      match run_process E c w with
      | (p, w1) =>
          Execute c ::
            (if check_exit_code c && negb (exit_zero p) then []
             else warning_if_stderr warning p ++ run_steps rest w1)
      end
  end.

(** What the host answers to commands run one after another. *)
Fixpoint answers (cmds : list command) (w : W) : list completed :=
  match cmds with
  | [] => []
  | c :: rest =>
      match run_process E c w with
      | (p, w1) => p :: answers rest w1
      end
  end.

End Agent.

(** ** Exit statuses alone *)

(** A sub-operation judged by its exit status only, and only when
    [execute] checks it. *)
Definition exit_only (op : sub_operation) : sub_operation :=
  (op.1, fun p => negb (check_exit_code op.1) || ((returncode p =? 0)%Z)).

(** A sub-operation that succeeded exited as [execute] wants it. *)
Definition implies_exit (op : sub_operation) : Prop :=
  forall p, op.2 p = true -> (exit_only op).2 p = true.

(** ** Ordering of the steps of one tick *)

(** A step taken for an added device: the filter preparation, the lookup
    and the status report of a name of [added], and the configuration of a
    device (the entry into [add_static_route] and every command run: an
    iteration of the loop runs commands for added devices only). *)
Definition added_step (di : device_info) (e : event) : bool :=
  match e with
  | PrepareDevicesFilter _ => true
  | CallAddStaticRoute _ _ _ => true
  | Execute _ => true
  | GetDeviceDetails d | UpdateDeviceUp d | UpdateDeviceDown d =>
      bool_decide (d ∈ added di)
  | _ => false
  end.

(** A step taken for a removed device. *)
Definition removed_step (di : device_info) (e : event) : bool :=
  match e with
  | RemoveDevicesFilter _ => true
  | UpdateDeviceDown d => bool_decide (d ∈ removed di)
  | _ => false
  end.

(** Every [p] event of the trace stands before every [q] event. *)
Fixpoint all_before (p q : event -> bool) (t : list event) : bool :=
  match t with
  | [] => true
  | e :: t' => (if q e then forallb (fun e' => negb (p e')) t' else true)
               && all_before p q t'
  end.

Definition count_events (p : event -> bool) (t : list event) : nat :=
  length (List.filter p t).

Definition is_remove_call (e : event) : bool :=
  match e with CallRemoveStaticRoute _ _ _ => true | _ => false end.

Definition is_report_down (e : event) : bool :=
  match e with UpdateDeviceDown _ => true | _ => false end.

(** ** Concrete hosts and plugins

    Scripted collaborators over the one-point world, used to run the agent on
    explicit inputs. *)

Definition scripted (proc : command -> completed) (ipv6 : string -> bool)
    (ls : option (list string)) (lookup : string -> option details)
    (up : string -> option unit) (down : string -> option down_details) : env unit :=
  {| run_process := fun c w => (proc c, w);
     valid_ipv6 := ipv6;
     listdir := fun _ w => (ls, w);
     get_device_details := fun d w => (lookup d, w);
     update_device_up := fun d w => (up d, w);
     update_device_down := fun d w => (down d, w);
     prepare_devices_filter := fun _ w => (Some tt, w);
     remove_devices_filter := fun _ w => (Some tt, w);
     iteration_order := fun devs _ => elements devs;
     iteration_order_visits_all := fun devs _ => Permutation_refl (elements devs) |}.

(** The same collaborators with every set visited in the opposite order. *)
Definition backwards (E : env unit) : env unit :=
  {| run_process := run_process E;
     valid_ipv6 := valid_ipv6 E;
     listdir := listdir E;
     get_device_details := get_device_details E;
     update_device_up := update_device_up E;
     update_device_down := update_device_down E;
     prepare_devices_filter := prepare_devices_filter E;
     remove_devices_filter := remove_devices_filter E;
     iteration_order := fun devs _ => rev (elements devs);
     iteration_order_visits_all :=
       fun devs _ => Permutation_sym (Permutation_rev (elements devs)) |}.

Definition program (c : command) : string := hd "" (argv c).

Definition silent : completed := {| stdout := ""; stderr := ""; returncode := 0 |}.

(** A host on which every command does its work: the two enable helpers
    print their status line, everything else is silent. *)
Definition healthy_host (c : command) : completed :=
  if String.eqb (program c) "neutron-enable-proxy-arp" then
    {| stdout := "Enabled proxy arp on " +:+ nth 1 (argv c) "";
       stderr := ""; returncode := 0 |}
  else if String.eqb (program c) "neutron-enable-local-routing" then
    {| stdout := "Enabled local routing on " +:+ nth 1 (argv c) "";
       stderr := ""; returncode := 0 |}
  else silent.

(** As [healthy_host], but [arp -s] fails. *)
Definition arp_failing_host (c : command) : completed :=
  if String.eqb (program c) "arp" && String.eqb (nth 1 (argv c) "") "-s" then
    {| stdout := ""; stderr := "SIOCSARP: Network is unreachable"; returncode := 255 |}
  else healthy_host c.

(** As [healthy_host], but the IPv6 neighbour entry is already there and
    [ip -6 neigh add] refuses to add it again. *)
Definition neigh_failing_host (c : command) : completed :=
  if String.eqb (program c) "ip" && String.eqb (nth 1 (argv c) "") "-6" then
    {| stdout := ""; stderr := "RTNETLINK answers: File exists"; returncode := 2 |}
  else healthy_host c.

(** A host on which the tap device is already gone: the route and the ARP
    entry are missing, and the proxy-ARP helper cannot open the device's
    control file. *)
Definition torn_down_host (c : command) : completed :=
  if String.eqb (program c) "neutron-disable-proxy-arp" then
    {| stdout := "Disabling proxy arp on " +:+ nth 1 (argv c) "";
       stderr := "IOError: [Errno 2] No such file or directory"; returncode := 1 |}
  else if String.eqb (program c) "ip" then
    {| stdout := ""; stderr := "RTNETLINK answers: No such process"; returncode := 2 |}
  else if String.eqb (program c) "arp" then
    {| stdout := ""; stderr := "No ARP entry for 10.65.0.2"; returncode := 255 |}
  else silent.

(** A host on which the route and the ARP entry are missing and the two
    disable helpers work. *)
Definition stale_host (c : command) : completed :=
  if String.eqb (program c) "ip" then
    {| stdout := ""; stderr := "RTNETLINK answers: No such process"; returncode := 2 |}
  else if String.eqb (program c) "arp" then
    {| stdout := ""; stderr := "No ARP entry for 10.65.0.2"; returncode := 255 |}
  else silent.

(** A host on which [ip route add] fails for one address. *)
Definition route_failing_host (bad_ip : string) (c : command) : completed :=
  if String.eqb (program c) "ip" && String.eqb (nth 3 (argv c) "") bad_ip then
    {| stdout := ""; stderr := "RTNETLINK answers: Network is unreachable"; returncode := 2 |}
  else healthy_host c.

(** Tells the textual IPv6 addresses used below from the IPv4 ones, as
    [netaddr.valid_ipv6] does on them. *)
Definition has_colon (s : string) : bool := contains ":" s.

Definition port (port_id ip mac : string) : details :=
  {| d_port_id := Some port_id;
     d_admin_state_up := Some true;
     d_network_type := Some "flat";
     d_segmentation_id := None;
     d_network_id := Some "net-1";
     d_physical_network := Some "physnet1";
     d_fixed_ips := Some [{| ip_address := ip; subnet_id := "subnet-1" |}];
     d_mac_address := Some mac |}.

(** The answer of the plugin for a device it does not know. *)
Definition unknown_port : details :=
  {| d_port_id := None; d_admin_state_up := None; d_network_type := None;
     d_segmentation_id := None; d_network_id := None;
     d_physical_network := None; d_fixed_ips := None; d_mac_address := None |}.

Definition acks (_ : string) : option unit := Some tt.
Definition existed (_ : string) : option down_details := Some {| d_exists := Some true |}.

(** The plugin knows [tapA], [tapB] and [tapC]; the lookup of [tapB] times
    out. *)
Definition lookup_with_timeout (dev : string) : option details :=
  if String.eqb dev "tapB" then None
  else if String.eqb dev "tapA" then Some (port "A" "10.65.0.2" "fa:16:3e:00:00:01")
  else if String.eqb dev "tapC" then Some (port "C" "10.65.0.4" "fa:16:3e:00:00:03")
  else Some unknown_port.

Definition lookup_all (dev : string) : option details :=
  if String.eqb dev "tapA" then Some (port "A" "10.65.0.2" "fa:16:3e:00:00:01")
  else Some unknown_port.

Definition lookup_unknown (_ : string) : option details := Some unknown_port.

(** The status report of an added device times out. *)
Definition up_times_out (_ : string) : option unit := None.

(** The report that [gone] is down times out; the other reports arrive. *)
Definition down_times_out (gone dev : string) : option down_details :=
  if String.eqb dev gone then None else Some {| d_exists := Some true |}.

Definition binding (ip : string) : ip_data :=
  {| ip_address := ip; subnet_id := "subnet-1" |}.

(** Scenario of the specification: known is [{tapX}], nothing is observed. *)
Definition removal_scenario : env unit :=
  scripted healthy_host has_colon (Some ["lo"; "eth0"]) lookup_unknown acks existed.

(** One device appeared while another one went away. *)
Definition churn_scenario : env unit :=
  scripted healthy_host has_colon (Some ["tapA"; "lo"]) lookup_unknown acks existed.

(** One device appeared; the plugin answers the lookup, the host is
    configured, and the report that the device is up times out. *)
Definition report_timeout_scenario : env unit :=
  scripted healthy_host has_colon (Some ["tapA"]) lookup_all up_times_out existed.

(** Three devices appeared and one went away; one lookup times out, one
    route cannot be added, and the report of the removed device times out. *)
Definition partial_failure_scenario : env unit :=
  scripted (route_failing_host "10.65.0.4") has_colon
    (Some ["tapA"; "tapB"; "tapC"]) lookup_with_timeout acks (down_times_out "tapD").

(** Three devices appeared on a healthy host; the lookup of [tapB] times
    out. *)
Definition lookup_timeout_scenario : env unit :=
  scripted healthy_host has_colon
    (Some ["tapA"; "tapB"; "tapC"]) lookup_with_timeout acks existed.

(** A host on which [arp -s] fails, and one on which the device is gone. *)
Definition arp_failure_scenario : env unit :=
  scripted arp_failing_host has_colon None lookup_unknown acks existed.

Definition neigh_failure_scenario : env unit :=
  scripted neigh_failing_host has_colon None lookup_unknown acks existed.

Definition torn_down_scenario : env unit :=
  scripted torn_down_host has_colon None lookup_unknown acks existed.

Definition stale_scenario : env unit :=
  scripted stale_host has_colon None lookup_unknown acks existed.

(** ** CalicoRpcCallbacks *)

(** The [port] dict of a [port_update] message; ['security_groups'] is
    tested with [in], the other keys are read with [port[k]]. *)
Record port_dict := {
  p_id : option string;
  p_security_groups : bool;
  p_admin_state_up : option bool;
  p_network_id : option string;
  p_fixed_ips : option (list ip_data);
  p_mac_address : option string }.

(** The keyword arguments of [port_update], all read with [kwargs.get]. *)
Record port_update_kwargs := {
  k_port : option port_dict;
  k_network_type : option string;
  k_segmentation_id : option string;
  k_physical_network : option string }.

(** What the callbacks and the heartbeat need beside [env]: the firewall
    refresh of the security-group mixin, and whether the exception that a
    plugin call raised, leaving the world it is asked about, is
    [rpc_common.Timeout]. *)
Record callbacks_env (W : Type) := {
  refresh_firewall : W -> option unit * W;
  timed_out : W -> bool }.
Arguments refresh_firewall {W} _ _.
Arguments timed_out {W} _ _.

(** The [agent_state] dict, in the two entries that [_report_state]
    writes: [configurations['devices']] and the presence of ['start_flag']. *)
Record agent_state := {
  configurations_devices : option nat;
  start_flag : bool }.

(** A call of a collaborator that the trace does not record. *)
Definition quiet_call {W A} (f : W -> option A * W) : M W A :=
  fun w =>
    match f w with
    | (Some a, w1) => (Returned a, w1, [])
    | (None, w1) => (Raised, w1, [])
    end.

Definition is_plugin_report (e : event) : bool :=
  match e with
  | UpdateDeviceUp _ | UpdateDeviceDown _ => true
  | _ => false
  end.

(** [try: m  except rpc_common.Timeout: ...]. Inside the [try] of
    [port_update] only the two status reports are plugin calls, so the
    exception is a timeout only if the last thing done is one of them. *)
Definition except_timeout {W} (C : callbacks_env W) (m : M W unit) : M W unit :=
  fun w =>
    match m w with
    | (Raised, w1, t1) =>
        if match last t1 with Some e => is_plugin_report e | None => false end
           && timed_out C w1
        then (Returned tt, w1, t1)
        else (Raised, w1, t1)
    | other => other
    end.

(** How Python prints [None] where a string is expected: [add_interface]
    only logs its [physical_network]. *)
Definition str_of (o : option string) : string :=
  match o with Some s => s | None => "None" end.

Section Callbacks.
Context {W : Type} (E : env W) (C : callbacks_env W).

(** The [try] block of [port_update]. *)
Definition port_update_body (kw : port_update_kwargs) (port : port_dict)
    (port_id tap_device_name : string) : M W unit :=
  admin_state_up <- key (p_admin_state_up port) ;;
  if admin_state_up : bool then
    let network_type := k_network_type kw in
    segmentation_id <-
      (if truthy network_type then ret (k_segmentation_id kw) else sys_exit) ;;
    let physical_network := k_physical_network kw in
    network_id <- key (p_network_id port) ;;
    fixed_ips <- key (p_fixed_ips port) ;;
    mac_address <- key (p_mac_address port) ;;
    ok <- add_interface E network_id network_type (str_of physical_network)
            segmentation_id port_id fixed_ips mac_address ;;
    if ok : bool then
      call (UpdateDeviceUp tap_device_name) (update_device_up E tap_device_name)
    else
      call (UpdateDeviceDown tap_device_name) (update_device_down E tap_device_name) ;;;
      ret tt
  else
    network_id <- key (p_network_id port) ;;
    fixed_ips <- key (p_fixed_ips port) ;;
    mac_address <- key (p_mac_address port) ;;
    remove_interface E network_id None None None port_id fixed_ips mac_address ;;;
    call (UpdateDeviceDown tap_device_name) (update_device_down E tap_device_name) ;;;
    ret tt.

Definition port_update (kw : port_update_kwargs) : M W unit :=
  port <- key (k_port kw) ;;
  port_id <- key (p_id port) ;;
  let tap_device_name := get_tap_device_name port_id in
  devices <- get_tap_devices E ;;
  if bool_decide (tap_device_name ∈ devices) then
    (if p_security_groups port then quiet_call (refresh_firewall C) else ret tt) ;;;
    except_timeout C (port_update_body kw port port_id tap_device_name)
  else ret tt.

End Callbacks.

(** ** The heartbeat *)

Section Heartbeat.
Context {W : Type} (E : env W).
Variable report_state : agent_state -> W -> option unit * W.

(** [_report_state]: what it wrote into [agent_state] stays written when a
    later step of the [try] raises. *)
Definition _report_state (s : agent_state) : M W agent_state :=
  r <- attempt (get_tap_devices E) ;;
  match r with
  | None => ret s
  | Some devs =>
      let s1 := {| configurations_devices := Some (size devs);
                   start_flag := start_flag s |} in
      sent <- attempt (quiet_call (report_state s1)) ;;
      match sent with
      | None => ret s1
      | Some _ => ret {| configurations_devices := Some (size devs);
                         start_flag := false |}
      end
  end.

End Heartbeat.

(** ** The helper commands *)

Definition newline : string := String (ascii_of_nat 10) EmptyString.

(** What [print] wrote, one line per call. *)
Definition printed (lines : list string) : string :=
  String.concat "" (List.map (fun l => l +:+ newline) lines).

Definition proxy_arp_file (tap_name : string) : string :=
  "/proc/sys/net/ipv4/conf/" +:+ tap_name +:+ "/proxy_arp".

Definition route_localnet_file (tap_name : string) : string :=
  "/proc/sys/net/ipv4/conf/" +:+ tap_name +:+ "/route_localnet".

Section Helpers.
Context {F : Type}.

(** [with open(path, 'wb') as f: f.write(text)] on the files [F]; [None]
    when it raises [IOError]. *)
Variable write_file : string -> string -> F -> option unit * F.

(** The shape the four helpers share: read [sys.argv[1]], print what is
    about to happen, write the control file, print what happened. The
    result is how the helper ended, the files, and the lines printed. *)
Definition toggle (doing done : string) (file : string -> string) (text : string)
    (argv : list string) (fs : F) : outcome unit * F * list string :=
  match nth_error argv 1 with
  | None => (Raised, fs, [])
  | Some tap_name =>
      match write_file (file tap_name) text fs with
      | (Some _, fs1) =>
          (Returned tt, fs1, [doing +:+ tap_name; done +:+ tap_name])
      | (None, fs1) => (Raised, fs1, [doing +:+ tap_name])
      end
  end.

Definition enable_proxy_arp : list string -> F -> outcome unit * F * list string :=
  toggle "Enabling proxy arp on " "Enabled proxy arp on " proxy_arp_file "1".

Definition disable_proxy_arp : list string -> F -> outcome unit * F * list string :=
  toggle "Disabling proxy arp on " "Disabled proxy arp on " proxy_arp_file "0".

Definition enable_local_routing : list string -> F -> outcome unit * F * list string :=
  toggle "Enabling local routing on " "Enabled local routing on "
    route_localnet_file "1".

Definition disable_local_routing : list string -> F -> outcome unit * F * list string :=
  toggle "Disabling local routing on " "Disabled local routing on "
    route_localnet_file "0".

End Helpers.

(** What the parent of a helper process sees: what was printed, and exit
    status 0, or a traceback and exit status 1 when an exception went
    uncaught. *)
Definition python_process {F} (r : outcome unit * F * list string) : completed :=
  match r.1.1 with
  | Returned _ => {| stdout := printed r.2; stderr := ""; returncode := 0 |}
  | _ => {| stdout := printed r.2;
            stderr := "Traceback (most recent call last):"; returncode := 1 |}
  end.

(** ** More observations on traces *)

Definition is_listdir (e : event) : bool :=
  match e with Listdir _ => true | _ => false end.

Definition is_lookup (e : event) : bool :=
  match e with GetDeviceDetails _ => true | _ => false end.

Definition is_report_up (e : event) : bool :=
  match e with UpdateDeviceUp _ => true | _ => false end.

(** The outcome with a test applied to what was returned. *)
Definition outcome_map {A B} (f : A -> B) (o : outcome A) : outcome B :=
  match o with
  | Returned a => Returned (f a)
  | Raised => Raised
  | Exited => Exited
  end.

(** Concrete collaborators for the callbacks, the heartbeat and the
    helpers. *)
Definition no_firewall_trouble : callbacks_env unit :=
  {| refresh_firewall := fun w => (Some tt, w); timed_out := fun _ => true |}.

Definition port_A (admin : bool) : port_dict :=
  {| p_id := Some "A"; p_security_groups := true; p_admin_state_up := Some admin;
     p_network_id := Some "net-1";
     p_fixed_ips := Some [{| ip_address := "10.65.0.2"; subnet_id := "subnet-1" |}];
     p_mac_address := Some "fa:16:3e:00:00:01" |}.

Definition update_of (port : port_dict) : port_update_kwargs :=
  {| k_port := Some port; k_network_type := Some "flat";
     k_segmentation_id := None; k_physical_network := None |}.

(** A host with [tapA] on which every command works. *)
Definition notification_scenario : env unit :=
  scripted healthy_host has_colon (Some ["tapA"; "lo"]) lookup_all acks existed.

(** Control files as a list of the paths that exist: writing to a path
    that is not there raises, as it does under [/proc/sys]. *)
Definition write_existing (path text : string) (fs : list (string * string))
    : option unit * list (string * string) :=
  if existsb (fun kv => String.eqb kv.1 path) fs
  then (Some tt, (path, text) :: List.filter (fun kv => negb (String.eqb kv.1 path)) fs)
  else (None, fs).

(** The plugin answers a port that is up and has no network type. *)
Definition port_without_network_type : details :=
  {| d_port_id := Some "A"; d_admin_state_up := Some true;
     d_network_type := None; d_segmentation_id := None;
     d_network_id := Some "net-1"; d_physical_network := Some "physnet1";
     d_fixed_ips := Some [{| ip_address := "10.65.0.2"; subnet_id := "subnet-1" |}];
     d_mac_address := Some "fa:16:3e:00:00:01" |}.

Definition old_plugin_scenario : env unit :=
  scripted healthy_host has_colon (Some ["tapA"; "tapB"])
    (fun _ => Some port_without_network_type) acks existed.

(** The directory of the virtual devices cannot be read. *)
Definition unreadable_scenario : env unit :=
  scripted healthy_host has_colon None lookup_unknown acks existed.

Definition is_add_call (e : event) : bool :=
  match e with CallAddStaticRoute _ _ _ => true | _ => false end.

(** The administrative state that a [port_update] message carries. *)
Definition admin_state_of (kw : port_update_kwargs) : option bool :=
  match k_port kw with
  | Some port => p_admin_state_up port
  | None => None
  end.

(** The report that a port is up or down times out, whatever else
    happens. *)
Definition report_timeout_callbacks : env unit :=
  scripted healthy_host has_colon (Some ["tapA"; "lo"]) lookup_all
    up_times_out existed.

(** A plugin failure that is no timeout. *)
Definition remote_error : callbacks_env unit :=
  {| refresh_firewall := fun w => (Some tt, w); timed_out := fun _ => false |}.

(** The state reports of the heartbeat are lost. *)
Definition report_lost (_ : agent_state) (w : unit) : option unit * unit := (None, w).

Definition report_delivered (_ : agent_state) (w : unit) : option unit * unit :=
  (Some tt, w).

(** The control files of [tapA], with proxy ARP and local routing off. *)
Definition control_files_of_tapA : list (string * string) :=
  [(proxy_arp_file "tapA", "0"); (route_localnet_file "tapA", "0")].

(** Whether a plugin call was answered, and the world it left. *)
Definition delivered {W A} (r : option A * W) : bool * W :=
  (match r.1 with Some _ => true | None => false end, r.2).

(** A host with [tapA] on which [arp -s] fails. *)
Definition arp_failure_callbacks : env unit :=
  scripted arp_failing_host has_colon (Some ["tapA"; "lo"]) lookup_all acks existed.

(** ** What a computation can emit *)

(** Every event a computation emits, from any world, satisfies [P]. *)
Definition emits {W A} (P : event -> Prop) (m : M W A) : Prop :=
  forall w, Forall P (trace_of (m w)).

(** * Proofs *)

Section MonadFacts.
Context {W : Type}.

Lemma bind_returned {A B} (m : M W A) (f : A -> M W B) w a w1 t1 :
  m w = (Returned a, w1, t1) ->
  bind m f w = (outcome_of (f a w1), world_of (f a w1), t1 ++ trace_of (f a w1)).
Proof.
  intros Hm. unfold bind, outcome_of, world_of, trace_of. rewrite Hm.
  destruct (f a w1) as [[r w2] t2]. reflexivity.
Qed.

Lemma emits_ret {A} P (a : A) : emits P (ret a : M W A).
Proof. intros w. constructor. Qed.

Lemma emits_raise {A} P : emits P (raise : M W A).
Proof. intros w. constructor. Qed.

Lemma emits_sys_exit {A} P : emits P (sys_exit : M W A).
Proof. intros w. constructor. Qed.

Lemma emits_key {A} P (o : option A) : emits P (key o : M W A).
Proof. destruct o; [apply emits_ret | apply emits_raise]. Qed.

Lemma emits_emit (P : event -> Prop) e : P e -> emits P (emit e : M W unit).
Proof. intros He w. repeat constructor. exact He. Qed.

Lemma emits_call {A} (P : event -> Prop) e (f : W -> option A * W) :
  P e -> emits P (call e f).
Proof.
  intros He w. unfold call, trace_of.
  destruct (f w) as [[a|] w1]; repeat constructor; exact He.
Qed.

Lemma emits_bind {A B} P (m : M W A) (f : A -> M W B) :
  emits P m -> (forall a, emits P (f a)) -> emits P (bind m f).
Proof.
  intros Hm Hf w. specialize (Hm w). unfold bind, trace_of in *.
  destruct (m w) as [[[a| |] w1] t1]; simpl in *; try exact Hm.
  specialize (Hf a w1). unfold trace_of in Hf.
  destruct (f a w1) as [[r w2] t2]. simpl in *.
  apply Forall_app. split; assumption.
Qed.

Lemma emits_attempt {A} P (m : M W A) : emits P m -> emits P (attempt m).
Proof.
  intros Hm w. specialize (Hm w). unfold attempt, trace_of in *.
  destruct (m w) as [[[a| |] w1] t1]; exact Hm.
Qed.

Lemma emits_if {A} P (b : bool) (m1 m2 : M W A) :
  emits P m1 -> emits P m2 -> emits P (if b then m1 else m2).
Proof. destruct b; auto. Qed.

Lemma prepend_nil {A} (r : outcome A * W * list event) : prepend [] r = r.
Proof. destruct r as [[o w] t]. reflexivity. Qed.

Lemma prepend_prepend {A} t1 t2 (r : outcome A * W * list event) :
  prepend t1 (prepend t2 r) = prepend (t1 ++ t2) r.
Proof. destruct r as [[o w] t]. unfold prepend. simpl. rewrite app_assoc. reflexivity. Qed.

Lemma outcome_prepend {A} t (r : outcome A * W * list event) :
  outcome_of (prepend t r) = outcome_of r.
Proof. reflexivity. Qed.

Lemma trace_prepend {A} t (r : outcome A * W * list event) :
  trace_of (prepend t r) = t ++ trace_of r.
Proof. reflexivity. Qed.

Lemma bind_ret_l {A B} (a : A) (f : A -> M W B) w : bind (ret a) f w = f a w.
Proof. unfold bind, ret. destruct (f a w) as [[r w1] t1]. reflexivity. Qed.

Lemma bind_emit {B} e (f : unit -> M W B) w :
  bind (emit e) f w = prepend [e] (f tt w).
Proof. unfold bind, emit, prepend. destruct (f tt w) as [[r w1] t1]. reflexivity. Qed.

Lemma bind_call {A B} e (f : W -> option A * W) (k : A -> M W B) w :
  bind (call e f) k w =
    match f w with
    | (Some a, w1) => prepend [e] (k a w1)
    | (None, w1) => (Raised, w1, [e])
    end.
Proof.
  unfold bind, call, prepend. destruct (f w) as [[a|] w1]; [|reflexivity].
  destruct (k a w1) as [[r w2] t2]. reflexivity.
Qed.

Lemma bind_attempt_call {A B} e (f : W -> option A * W) (k : option A -> M W B) w :
  bind (attempt (call e f)) k w = prepend [e] (k (f w).1 (f w).2).
Proof.
  unfold bind, attempt, call, prepend. destruct (f w) as [[a|] w1]; simpl.
  - destruct (k (Some a) w1) as [[r w2] t2]. reflexivity.
  - destruct (k None w1) as [[r w2] t2]. reflexivity.
Qed.

Lemma bind_assoc {A B C} (m : M W A) (f : A -> M W B) (g : B -> M W C) w :
  bind (bind m f) g w = bind m (fun a => bind (f a) g) w.
Proof.
  unfold bind. destruct (m w) as [[[a| |] w1] t1]; try reflexivity.
  destruct (f a w1) as [[[b| |] w2] t2]; try reflexivity.
  destruct (g b w2) as [[r w3] t3]. rewrite app_assoc. reflexivity.
Qed.

Lemma outcome_bind {A B} (m : M W A) (f : A -> M W B) w :
  outcome_of (bind m f w) =
    match m w with
    | (Returned a, w1, _) => outcome_of (f a w1)
    | (Raised, _, _) => Raised
    | (Exited, _, _) => Exited
    end.
Proof.
  unfold outcome_of, bind. destruct (m w) as [[[a| |] w1] t1]; try reflexivity.
  destruct (f a w1) as [[r w2] t2]. reflexivity.
Qed.

Lemma outcome_bind_ret {A B} (a : A) (f : A -> M W B) w :
  outcome_of (bind (ret a) f w) = outcome_of (f a w).
Proof. rewrite outcome_bind. reflexivity. Qed.

(** The trace of a sequence is the trace of its first part followed by
    the trace of its second part. *)
Lemma trace_bind_split {A B} (P Q : event -> Prop) (m : M W A) (f : A -> M W B) w :
  emits P m -> (forall a, emits Q (f a)) ->
  exists t1 t2, trace_of (bind m f w) = t1 ++ t2 /\ Forall P t1 /\ Forall Q t2.
Proof.
  intros Hm Hf. specialize (Hm w). unfold bind, trace_of in *.
  destruct (m w) as [[[a| |] w1] t1]; simpl in *.
  - specialize (Hf a w1). unfold trace_of in Hf.
    destruct (f a w1) as [[r w2] t2]. simpl in *.
    exists t1, t2. auto.
  - exists t1, []. rewrite app_nil_r. auto.
  - exists t1, []. rewrite app_nil_r. auto.
Qed.

End MonadFacts.

Lemma executed_app t1 t2 : executed (t1 ++ t2) = executed t1 ++ executed t2.
Proof. unfold executed. apply omap_app. Qed.

Section ManagerFacts.
Context {W : Type} (E : env W).

Lemma emits_execute (P : event -> Prop) c : P (Execute c) -> emits P (execute E c).
Proof.
  intros Hc w. unfold execute, trace_of.
  destruct (run_process E c w) as [p w1].
  destruct (negb (returncode p =? 0)%Z && check_exit_code c);
    repeat constructor; exact Hc.
Qed.

Lemma outcome_bind_execute {B} c (f : string * string -> M W B) w :
  outcome_of (bind (execute E c) f w) =
    match run_process E c w with
    | (p, w1) =>
        if negb (check_exit_code c) || exit_zero p
        then outcome_of (f (stdout p, stderr p) w1)
        else Raised
    end.
Proof.
  rewrite outcome_bind. unfold execute, exit_zero.
  destruct (run_process E c w) as [p w1].
  destruct (check_exit_code c), (returncode p =? 0)%Z; reflexivity.
Qed.

Lemma bind_execute {B} c (f : string * string -> M W B) w :
  bind (execute E c) f w =
    match run_process E c w with
    | (p, w1) =>
        if negb (check_exit_code c) || exit_zero p
        then prepend [Execute c] (f (stdout p, stderr p) w1)
        else (Raised, w1, [Execute c])
    end.
Proof.
  unfold bind, execute, exit_zero, prepend.
  destruct (run_process E c w) as [p w1].
  destruct (check_exit_code c), (returncode p =? 0)%Z; simpl;
    try reflexivity; destruct (f (stdout p, stderr p) w1) as [[r w2] t2]; reflexivity.
Qed.

End ManagerFacts.

(** Case analysis on the next process that runs, and on its exit status. *)
Ltac run_step :=
  match goal with
  | |- context [run_process ?E ?c ?w] =>
      let p := fresh "p" in
      let w' := fresh "w" in
      destruct (run_process E c w) as [p w']; simpl
  end.

(** Case analysis on the next process that runs, leaving the goal as it is. *)
Ltac run_only :=
  match goal with
  | |- context [run_process ?E ?c ?w] =>
      let p := fresh "p" in
      let w' := fresh "w" in
      destruct (run_process E c w) as [p w']
  end.

Ltac exit_step p :=
  unfold exit_zero; destruct (returncode p =? 0)%Z; simpl; [|reflexivity].

(** ** Zero bindings *)

(** C10. With an empty list of bindings, [add_static_route] executes no
    command, leaves the host as it was and returns true, and so does
    [remove_static_route]; the same holds through [add_interface] and
    [remove_interface]. *)
Theorem empty_bindings_succeed :
  forall (W : Type) (E : env W) (tap mac : string) (w : W),
    (outcome_of (add_static_route E tap [] mac w) = Returned true /\
     world_of (add_static_route E tap [] mac w) = w /\
     effects (trace_of (add_static_route E tap [] mac w)) = []) /\
    (outcome_of (remove_static_route E tap [] mac w) = Returned true /\
     world_of (remove_static_route E tap [] mac w) = w /\
     effects (trace_of (remove_static_route E tap [] mac w)) = []) /\
    (forall net nt phys seg port,
        outcome_of (add_interface E net nt phys seg port [] mac w) = Returned true /\
        executed (trace_of (add_interface E net nt phys seg port [] mac w)) = []) /\
    (forall net nt phys seg port,
        outcome_of (remove_interface E net nt phys seg port [] mac w) = Returned true /\
        executed (trace_of (remove_interface E net nt phys seg port [] mac w)) = []).
Proof.
  intros W E tap mac w. repeat split.
Qed.

(** ** The MAC address and removal *)

Section RemovalFacts.
Context {W : Type} (E : env W).

Lemma remove_static_route_unfold tap ips mac w :
  remove_static_route E tap ips mac w =
    (outcome_of (remove_static_route_loop E tap ips w),
     world_of (remove_static_route_loop E tap ips w),
     CallRemoveStaticRoute tap ips mac :: trace_of (remove_static_route_loop E tap ips w)).
Proof.
  unfold remove_static_route. erewrite bind_returned by reflexivity. reflexivity.
Qed.

End RemovalFacts.

(** C9. [remove_static_route] does not look at its [mac_address] argument:
    for any two MAC addresses it returns the same value, leaves the same
    host, and executes the same commands with the same warnings. *)
Theorem remove_ignores_mac :
  forall (W : Type) (E : env W) (tap : string) (ips : list ip_data)
         (mac1 mac2 : string) (w : W),
    outcome_of (remove_static_route E tap ips mac1 w)
      = outcome_of (remove_static_route E tap ips mac2 w) /\
    world_of (remove_static_route E tap ips mac1 w)
      = world_of (remove_static_route E tap ips mac2 w) /\
    executed (trace_of (remove_static_route E tap ips mac1 w))
      = executed (trace_of (remove_static_route E tap ips mac2 w)) /\
    effects (trace_of (remove_static_route E tap ips mac1 w))
      = effects (trace_of (remove_static_route E tap ips mac2 w)).
Proof.
  intros W E tap ips mac1 mac2 w.
  rewrite !remove_static_route_unfold. repeat split.
Qed.

(** ** The delta *)

Lemma delta_restores (A B : gset string) : (A ∪ (B ∖ A)) ∖ (A ∖ B) = B.
Proof.
  apply set_eq. intros x.
  rewrite !elem_of_difference, elem_of_union, elem_of_difference.
  destruct (decide (x ∈ A)), (decide (x ∈ B)); tauto.
Qed.

Lemma device_delta_some (A B : gset string) :
  B <> A ->
  device_delta B A = Some {| current := B; added := B ∖ A; removed := A ∖ B |}.
Proof. intros Hne. unfold device_delta. rewrite decide_False; auto. Qed.

Lemma device_delta_none (A : gset string) : device_delta A A = None.
Proof. unfold device_delta. rewrite decide_True; auto. Qed.

Lemma device_delta_disjoint (A B : gset string) di :
  device_delta B A = Some di -> added di ## removed di.
Proof.
  unfold device_delta. case_decide; [discriminate|].
  intros [= <-]. simpl. apply elem_of_disjoint. intros x.
  rewrite !elem_of_difference. tauto.
Qed.

(** C4. For all device sets [A] (known) and [B] (current), the delta that
    [update_devices] computes has [added = B − A] and [removed = A − B], and
    [(A ∪ added) − removed = B]; it computes none exactly when [B = A],
    where the same identities hold with both differences empty. *)
Theorem delta_is_set_difference :
  forall A B : gset string,
    match device_delta B A with
    | Some di =>
        current di = B /\ added di = B ∖ A /\ removed di = A ∖ B /\
        (A ∪ added di) ∖ removed di = B
    | None =>
        B = A /\ B ∖ A = ∅ /\ A ∖ B = ∅ /\ (A ∪ (B ∖ A)) ∖ (A ∖ B) = B
    end.
Proof.
  intros A B. unfold device_delta. case_decide as Heq; simpl.
  - subst B. pose proof (difference_diag_L A) as Hd.
    repeat split; auto using delta_restores.
  - repeat split. apply delta_restores.
Qed.

(** ** One iteration of the loop *)

Section LoopFacts.
Context {W : Type} (E : env W).

(** What [update_devices] answers when the directory can be read. *)
Lemma update_devices_observed (A : gset string) w names w1 :
  listdir E TAP_FS w = (Some names, w1) ->
  update_devices E A w =
    (Returned (device_delta
                 (list_to_set (List.filter (String.prefix TAP_INTERFACE_PREFIX) names)) A),
     w1, [Listdir TAP_FS]).
Proof.
  intros Hls. unfold update_devices, get_tap_devices, bind, call, ret.
  rewrite Hls. reflexivity.
Qed.

(** What [update_devices] does when the directory cannot be read. *)
Lemma update_devices_unreadable (A : gset string) w w1 :
  listdir E TAP_FS w = (None, w1) ->
  update_devices E A w = (Raised, w1, [Listdir TAP_FS]).
Proof.
  intros Hls. unfold update_devices, get_tap_devices, bind, call, ret.
  rewrite Hls. reflexivity.
Qed.

(** An iteration that found a delta, in terms of how the processing of the
    delta ends. *)
Lemma iteration_with_delta st w di w1 t1 :
  update_devices E (devices (resync_clear st)) w = (Returned (Some di), w1, t1) ->
  daemon_loop_iteration E st w =
    match process_network_devices E di w1 with
    | (Returned r, w2, t2) =>
        (Returned {| sync := r; devices := current di |}, w2, t1 ++ t2)
    | (Raised, w2, t2) =>
        (Returned {| sync := true; devices := devices (resync_clear st) |}, w2, t1 ++ t2)
    | (Exited, w2, t2) => (Exited, w2, t1 ++ t2)
    end.
Proof.
  intros Hup. unfold daemon_loop_iteration, bind, attempt. rewrite Hup.
  destruct (process_network_devices E di w1) as [[[r| |] w2] t2]; simpl;
    rewrite ?app_nil_r; reflexivity.
Qed.

(** An iteration that cannot read the directory sets the resync flag and
    does nothing else. *)
Lemma iteration_discovery_failure st w w1 :
  listdir E TAP_FS w = (None, w1) ->
  daemon_loop_iteration E st w =
    (Returned {| sync := true; devices := devices (resync_clear st) |},
     w1, [Listdir TAP_FS]).
Proof.
  intros Hls. unfold daemon_loop_iteration, bind, attempt.
  rewrite (update_devices_unreadable _ w w1 Hls). reflexivity.
Qed.

(** An iteration that observes the known set does nothing else. *)
Lemma iteration_no_delta st w names w1 :
  listdir E TAP_FS w = (Some names, w1) ->
  list_to_set (List.filter (String.prefix TAP_INTERFACE_PREFIX) names)
    = devices (resync_clear st) ->
  daemon_loop_iteration E st w = (Returned (resync_clear st), w1, [Listdir TAP_FS]).
Proof.
  intros Hls Heq. unfold daemon_loop_iteration, bind, attempt.
  rewrite (update_devices_observed _ w names w1 Hls), Heq, device_delta_none.
  reflexivity.
Qed.

(** The first iteration of [daemon_loop] is a resync. *)
Lemma daemon_loop_first w :
  daemon_loop E 1 w = daemon_loop_iteration E {| sync := true; devices := ∅ |} w.
Proof.
  unfold daemon_loop. simpl. unfold bind, ret.
  destruct (daemon_loop_iteration E _ w) as [[[st| |] w1] t1]; try reflexivity.
  rewrite app_nil_r. reflexivity.
Qed.

Lemma resync_clear_sync st : sync st = true -> devices (resync_clear st) = ∅.
Proof. intros Hs. unfold resync_clear. rewrite Hs. reflexivity. Qed.

Lemma device_delta_from_empty (B : gset string) :
  B <> ∅ ->
  device_delta B ∅ = Some {| current := B; added := B; removed := ∅ |}.
Proof.
  intros Hne. rewrite device_delta_some by exact Hne.
  rewrite difference_empty_L.
  replace (∅ ∖ B) with (∅ : gset string); [reflexivity|].
  apply set_eq. intros x. rewrite elem_of_difference, elem_of_empty. tauto.
Qed.

End LoopFacts.

(** C5. When an iteration starts with the resync flag set, the known set is
    cleared before the devices are observed: whatever it held, if the
    observed set [B] is not empty the delta of this iteration has
    [current = B], [added = B] and [removed = ∅], and this is the delta the
    iteration processes. *)
Theorem resync_rediscovers_everything :
  forall (W : Type) (E : env W) (st : loop_state) (w w1 : W) (names : list string),
    sync st = true ->
    listdir E TAP_FS w = (Some names, w1) ->
    let B : gset string :=
      list_to_set (List.filter (String.prefix TAP_INTERFACE_PREFIX) names) in
    B <> ∅ ->
    let di := {| current := B; added := B; removed := ∅ |} in
    devices (resync_clear st) = ∅ /\
    update_devices E (devices (resync_clear st)) w
      = (Returned (Some di), w1, [Listdir TAP_FS]) /\
    trace_of (daemon_loop_iteration E st w)
      = Listdir TAP_FS :: trace_of (process_network_devices E di w1).
Proof.
  intros W E st w w1 names Hsync Hls B HB di.
  assert (Hup : update_devices E (devices (resync_clear st)) w
                = (Returned (Some di), w1, [Listdir TAP_FS])).
  { rewrite (update_devices_observed E _ w names w1 Hls).
    rewrite (resync_clear_sync st Hsync).
    fold B. rewrite (device_delta_from_empty B HB). reflexivity. }
  split; [apply resync_clear_sync; exact Hsync|]. split; [exact Hup|].
  rewrite (iteration_with_delta E st w di w1 _ Hup).
  destruct (process_network_devices E di w1) as [[[r| |] w2] t2]; reflexivity.
Qed.

(** The resync flag is set, [tapOld] is known and [tapA] is observed. *)
Lemma resync_rediscovers_everything_witness :
  trace_of (daemon_loop_iteration churn_scenario
              {| sync := true; devices := {[ "tapOld" ]} |} tt)
    = Listdir TAP_FS ::
      trace_of (process_network_devices churn_scenario
                  {| current := list_to_set ["tapA"];
                     added := list_to_set ["tapA"]; removed := ∅ |} tt).
Proof.
  refine (proj2 (proj2 (resync_rediscovers_everything unit churn_scenario
            {| sync := true; devices := {[ "tapOld" ]} |} tt tt ["tapA"; "lo"]
            eq_refl eq_refl _))).
  vm_compute. discriminate.
Defined.

(** C8. An iteration that computed a delta ends with the known set equal to
    the observed one whenever the processing of the delta returns, whatever
    it returns; when the processing raises, the exception is caught, the
    known set stays as it was after the resync step, and the resync flag is
    set; when it exits, the loop ends. *)
Theorem known_becomes_current_unless_raised :
  forall (W : Type) (E : env W) (st : loop_state) (w w1 : W)
         (di : device_info) (t1 : list event),
    update_devices E (devices (resync_clear st)) w = (Returned (Some di), w1, t1) ->
    match outcome_of (process_network_devices E di w1) with
    | Returned r =>
        outcome_of (daemon_loop_iteration E st w)
          = Returned {| sync := r; devices := current di |}
    | Raised =>
        outcome_of (daemon_loop_iteration E st w)
          = Returned {| sync := true; devices := devices (resync_clear st) |}
    | Exited => outcome_of (daemon_loop_iteration E st w) = Exited
    end.
Proof.
  intros W E st w w1 di t1 Hup.
  rewrite (iteration_with_delta E st w di w1 t1 Hup).
  destruct (process_network_devices E di w1) as [[[r| |] w2] t2]; reflexivity.
Qed.

(** A lookup that times out, a route that cannot be added and a report of
    a removed device that times out do not keep the known set from becoming
    the observed one. *)
Lemma known_becomes_current_unless_raised_witness :
  outcome_of (daemon_loop_iteration partial_failure_scenario
                {| sync := false; devices := {[ "tapD" ]} |} tt)
    = Returned {| sync := true; devices := list_to_set ["tapA"; "tapB"; "tapC"] |}.
Proof.
  pose proof (known_becomes_current_unless_raised unit partial_failure_scenario
                {| sync := false; devices := {[ "tapD" ]} |} tt tt
                {| current := list_to_set ["tapA"; "tapB"; "tapC"];
                   added := list_to_set ["tapA"; "tapB"; "tapC"];
                   removed := {[ "tapD" ]} |}
                [Listdir TAP_FS]) as H.
  assert (Hup : update_devices partial_failure_scenario
                  (devices (resync_clear {| sync := false; devices := {[ "tapD" ]} |})) tt
                = (Returned (Some {| current := list_to_set ["tapA"; "tapB"; "tapC"];
                                     added := list_to_set ["tapA"; "tapB"; "tapC"];
                                     removed := {[ "tapD" ]} |}), tt, [Listdir TAP_FS])).
  { vm_compute. reflexivity. }
  specialize (H Hup). vm_compute in H. vm_compute. exact H.
Defined.

(** C8, as stated, fails: [tapA] appears, its lookup and its configuration
    succeed, and the report that it is up times out. The delta has
    [current = {tapA}], and the iteration ends with the known set empty. *)
Lemma report_timeout_keeps_known :
  update_devices report_timeout_scenario
    (devices (resync_clear {| sync := false; devices := ∅ |})) tt
    = (Returned (Some {| current := {[ "tapA" ]}; added := {[ "tapA" ]}; removed := ∅ |}),
       tt, [Listdir TAP_FS]) /\
  outcome_of (daemon_loop_iteration report_timeout_scenario
                {| sync := false; devices := ∅ |} tt)
    = Returned {| sync := true; devices := ∅ |} /\
  (∅ : gset string) <> {[ "tapA" ]}.
Proof.
  split; [vm_compute; reflexivity|]. split; [vm_compute; reflexivity|].
  vm_compute. discriminate.
Qed.

(** ** A lookup that fails *)

Section AddedFacts.
Context {W : Type} (E : env W).

(** One step of the loop of [treat_devices_added]. *)
Lemma treat_devices_added_loop_cons device rest resync w :
  treat_devices_added_loop E (device :: rest) resync w =
    match get_device_details E device w with
    | (None, w1) =>
        prepend [GetDeviceDetails device] (treat_devices_added_loop E rest true w1)
    | (Some d, w1) =>
        match configure_added_device E device d w1 with
        | (Returned _, w2, t2) =>
            prepend (GetDeviceDetails device :: t2)
              (treat_devices_added_loop E rest resync w2)
        | (Raised, w2, t2) => (Raised, w2, GetDeviceDetails device :: t2)
        | (Exited, w2, t2) => (Exited, w2, GetDeviceDetails device :: t2)
        end
    end.
Proof.
  simpl. unfold bind, attempt, call, prepend.
  destruct (get_device_details E device w) as [[d|] w1]; simpl.
  - destruct (configure_added_device E device d w1) as [[[[]| |] w2] t2];
      try reflexivity.
    destruct (treat_devices_added_loop E rest resync w2) as [[r w3] t3].
    reflexivity.
  - destruct (treat_devices_added_loop E rest true w1) as [[r w3] t3].
    reflexivity.
Qed.



(** The flag of the added devices reaches the caller of
    [process_network_devices]. *)
Lemma process_network_devices_flag di w w1 t1 r :
  treat_devices_added E (added di) w = (Returned true, w1, t1) ->
  outcome_of (process_network_devices E di w) = Returned r -> r = true.
Proof.
  intros Ha. unfold process_network_devices, outcome_of, bind. rewrite Ha.
  destruct (treat_devices_removed E (removed di) w1) as [[[b| |] w2] t2];
    simpl; try discriminate.
  intros [= <-]. reflexivity.
Qed.

End AddedFacts.



(** ** The outcome of the configurator *)

Section OutcomeFacts.
Context {W : Type} (E : env W).

(** How [add_static_route] ends, from the exit statuses of the checked
    commands and the tests on what the commands printed. *)
Lemma add_static_route_loop_outcome tap mac ips : forall result w,
  outcome_of (add_static_route_loop E tap mac ips result w) =
    if all_succeed E (map exit_only (flat_map (add_sub_operations E tap mac) ips)) w
    then Returned (result && all_succeed E (flat_map (add_sub_operations E tap mac) ips) w)
    else Raised.
Proof.
  induction ips as [|d ips IH]; intros result w.
  - simpl. rewrite andb_true_r. reflexivity.
  - simpl add_static_route_loop. simpl flat_map. unfold add_sub_operations.
    fold (add_sub_operations E tap mac).
    rewrite outcome_bind_execute.
    destruct (valid_ipv6 E (ip_address d)) eqn:Hv; simpl.
    + run_step. rewrite !bind_assoc, outcome_bind_execute. run_step.
      exit_step p0.
      rewrite outcome_bind_ret, outcome_bind_execute. run_step.
      exit_step p1.
      rewrite IH.
      destruct (all_succeed E (map exit_only _) w2); [|reflexivity].
      unfold route_added. rewrite !andb_assoc. reflexivity.
    + run_step. rewrite !bind_assoc, outcome_bind_execute. run_step.
      exit_step p0.
      rewrite !bind_assoc, outcome_bind_execute. run_step.
      exit_step p1.
      rewrite outcome_bind_ret, outcome_bind_execute. run_step.
      exit_step p2.
      rewrite IH.
      destruct (all_succeed E (map exit_only _) w3); [|reflexivity].
      unfold route_added. rewrite !andb_assoc. reflexivity.
Qed.

Lemma all_succeed_exit_only ops : forall w,
  Forall implies_exit ops ->
  all_succeed E ops w = true -> all_succeed E (map exit_only ops) w = true.
Proof.
  induction ops as [|[c ok] ops IH]; intros w Hall Hs; [reflexivity|].
  inversion Hall as [|? ? Hop Hops]; subst. simpl in *.
  destruct (run_process E c w) as [p w1].
  apply andb_true_iff in Hs as [Hok Hrest].
  apply andb_true_iff. split; [exact (Hop p Hok)|]. apply IH; assumption.
Qed.

Lemma add_sub_operations_exit tap mac ips :
  Forall implies_exit (flat_map (add_sub_operations E tap mac) ips).
Proof.
  induction ips as [|d ips IH]; [constructor|].
  cbn [flat_map]. apply Forall_app. split; [|exact IH].
  unfold add_sub_operations.
  destruct (valid_ipv6 E (ip_address d)); simpl;
    repeat constructor; intros p; unfold implies_exit, exit_only, exit_zero; simpl;
    intros Hp; try reflexivity;
    try (apply andb_true_iff in Hp as [Hp _]); exact Hp.
Qed.

End OutcomeFacts.

(** C3. [add_static_route] returns true if and only if, for every
    binding in order, every sub-operation succeeded as the code judges it:
    the route add left standard error empty or with "File exists" in it;
    for an IPv6 address the neighbour add exited with status zero; for an
    IPv4 address the proxy-ARP helper exited with status zero and printed
    "Enabled proxy arp", and the static ARP add exited with status zero;
    the local-routing helper exited with status zero and printed "Enabled
    local routing". It returns false when one of the tests on the output
    fails while every checked command exits with status zero, and it raises
    as soon as a checked command exits with another status. *)
Theorem add_static_route_true_iff :
  forall (W : Type) (E : env W) (tap : string) (ips : list ip_data)
         (mac : string) (w : W),
    let ops := flat_map (add_sub_operations E tap mac) ips in
    let r := outcome_of (add_static_route E tap ips mac w) in
    (r = Returned true <-> all_succeed E ops w = true) /\
    (r = Returned false <->
       all_succeed E (map exit_only ops) w = true /\ all_succeed E ops w = false) /\
    (r = Raised <-> all_succeed E (map exit_only ops) w = false).
Proof.
  intros W E tap ips mac w ops r.
  assert (Hr : r = if all_succeed E (map exit_only ops) w
                   then Returned (all_succeed E ops w) else Raised).
  { subst r ops. unfold add_static_route.
    rewrite outcome_bind. simpl.
    exact (add_static_route_loop_outcome E tap mac ips true w). }
  pose proof (all_succeed_exit_only E ops w (add_sub_operations_exit E tap mac ips))
    as Himp.
  rewrite Hr. clear Hr.
  destruct (all_succeed E (map exit_only ops) w) eqn:Hx;
    destruct (all_succeed E ops w) eqn:Hy;
    try (specialize (Himp eq_refl); discriminate);
    repeat split; intros; try discriminate; try tauto;
    try (destruct H; discriminate).
Qed.

(** C3, as stated, fails. With one IPv6 binding on a host where the
    neighbour add exits with status 2, a sub-operation failed and the
    outcome is not false: [add_static_route] raises at the neighbour add.
    With one IPv4 binding on a host where only [arp -s] fails, each
    sub-operation that the specification lists (the route add, the
    proxy-ARP enable, the local-routing enable) succeeds, and
    [add_static_route] does not return true: it raises at the static ARP
    add. *)
Lemma checked_command_failure_raises :
  (add_static_route neigh_failure_scenario "tapX" [binding "fd00::2"]
     "fa:16:3e:00:00:01" tt =
     (Raised, tt,
      [CallAddStaticRoute "tapX" [binding "fd00::2"] "fa:16:3e:00:00:01";
       Execute (route_add_cmd "fd00::2" "tapX");
       Execute (neigh_add_cmd "fd00::2" "fa:16:3e:00:00:01" "tapX")]) /\
   outcome_of (add_static_route neigh_failure_scenario "tapX" [binding "fd00::2"]
                 "fa:16:3e:00:00:01" tt) <> Returned false) /\
  (all_succeed arp_failure_scenario
     (flat_map (spec_add_sub_operations arp_failure_scenario "tapX" "fa:16:3e:00:00:01")
        [binding "10.65.0.2"]) tt = true /\
   add_static_route arp_failure_scenario "tapX" [binding "10.65.0.2"]
     "fa:16:3e:00:00:01" tt =
     (Raised, tt,
      [CallAddStaticRoute "tapX" [binding "10.65.0.2"] "fa:16:3e:00:00:01";
       Execute (route_add_cmd "10.65.0.2" "tapX");
       Execute (enable_proxy_arp_cmd "tapX");
       Execute (arp_add_cmd "10.65.0.2" "fa:16:3e:00:00:01")]) /\
   outcome_of (add_static_route arp_failure_scenario "tapX" [binding "10.65.0.2"]
                 "fa:16:3e:00:00:01" tt) <> Returned true).
Proof.
  split; (split; [vm_compute; reflexivity|]).
  - vm_compute. discriminate.
  - split; [vm_compute; reflexivity|]. vm_compute. discriminate.
Qed.

(** ** The outcome of removal *)

Section RemovalOutcome.
Context {W : Type} (E : env W).

Lemma remove_static_route_loop_result tap ips : forall w,
  if all_succeed E (flat_map (remove_sub_operations tap) ips) w
  then outcome_of (remove_static_route_loop E tap ips w) = Returned true /\
       executed (trace_of (remove_static_route_loop E tap ips w))
         = map fst (flat_map (remove_sub_operations tap) ips)
  else outcome_of (remove_static_route_loop E tap ips w) = Raised.
Proof.
  induction ips as [|d ips IH]; intros w.
  - simpl. split; reflexivity.
  - cbn [flat_map remove_static_route_loop remove_sub_operations app all_succeed map fst].
    rewrite bind_execute. run_step.
    destruct (is_empty (stderr p)); [rewrite bind_ret_l | rewrite bind_emit];
      rewrite bind_execute; run_step; unfold exit_zero;
      (destruct (returncode p0 =? 0)%Z; simpl; [|reflexivity]);
      rewrite bind_execute; run_step; unfold exit_zero;
      (destruct (returncode p1 =? 0)%Z; simpl; [|reflexivity]);
      rewrite bind_execute; run_step;
      (destruct (is_empty (stderr p2)); [rewrite bind_ret_l | rewrite bind_emit]);
      specialize (IH w3);
      destruct (all_succeed E (flat_map (remove_sub_operations tap) ips) w3);
      rewrite ?outcome_prepend, ?trace_prepend, ?executed_app; simpl;
      try exact IH; destruct IH as [Ho Ht]; (split; [exact Ho|]);
      do 4 f_equal; exact Ht.
Qed.

(** The warning after a deletion. *)
Lemma bind_warning {B} (b : bool) e (k : unit -> M W B) w :
  bind (if b then ret tt else emit e) k w = prepend (if b then [] else [e]) (k tt w).
Proof.
  destruct b; [rewrite bind_ret_l, prepend_nil | rewrite bind_emit]; reflexivity.
Qed.

(** The trace of the loop is the run of its steps. *)
Lemma remove_static_route_loop_steps tap ips : forall w,
  trace_of (remove_static_route_loop E tap ips w)
    = run_steps E (flat_map (remove_steps tap) ips) w.
Proof.
  induction ips as [|d ips IH]; intros w; [reflexivity|].
  cbn [flat_map remove_static_route_loop remove_steps app run_steps].
  rewrite bind_execute. run_only.
  cbn [check_exit_code route_del_cmd negb orb andb warning_if_stderr snd].
  rewrite trace_prepend, bind_warning, trace_prepend, bind_execute. run_only.
  cbn [check_exit_code disable_proxy_arp_cmd negb orb andb warning_if_stderr].
  destruct (exit_zero p0); cbn [negb app]; [|reflexivity].
  rewrite trace_prepend, bind_execute. run_only.
  cbn [check_exit_code disable_local_routing_cmd negb orb andb].
  destruct (exit_zero p1); cbn [negb app]; [|reflexivity].
  rewrite trace_prepend, bind_execute. run_only.
  cbn [check_exit_code arp_del_cmd negb orb andb warning_if_stderr snd].
  rewrite trace_prepend, bind_warning, trace_prepend, IH. reflexivity.
Qed.

(** When the loop raises, it stopped at a helper that exited with a status
    other than zero, and ran nothing after it. *)
Lemma remove_static_route_loop_abort tap ips : forall w,
  outcome_of (remove_static_route_loop E tap ips w) = Raised ->
  exists (k : nat) (c : command) (p : completed),
    map fst (flat_map (remove_sub_operations tap) ips) !! k = Some c /\
    answers E (map fst (flat_map (remove_sub_operations tap) ips)) w !! k = Some p /\
    (c = disable_proxy_arp_cmd tap \/ c = disable_local_routing_cmd tap) /\
    returncode p <> 0%Z /\
    executed (trace_of (remove_static_route_loop E tap ips w))
      = take (S k) (map fst (flat_map (remove_sub_operations tap) ips)).
Proof.
  induction ips as [|d ips IH]; intros w; [discriminate|].
  cbn [flat_map remove_static_route_loop remove_sub_operations app map fst answers].
  rewrite bind_execute. run_only.
  cbn [check_exit_code route_del_cmd negb orb snd].
  rewrite outcome_prepend, trace_prepend, bind_warning, outcome_prepend, trace_prepend.
  rewrite bind_execute. run_only.
  cbn [check_exit_code disable_proxy_arp_cmd negb orb]. unfold exit_zero.
  destruct (returncode p0 =? 0)%Z eqn:H0.
  2:{ intros _. exists 1, (disable_proxy_arp_cmd tap), p0.
      split; [reflexivity|]. split; [reflexivity|]. split; [left; reflexivity|].
      split.
      - intros Hz. rewrite Hz in H0. discriminate.
      - rewrite !executed_app. destruct (is_empty (stderr p)); reflexivity. }
  rewrite outcome_prepend, trace_prepend, bind_execute. run_only.
  cbn [check_exit_code disable_local_routing_cmd negb orb]. unfold exit_zero.
  destruct (returncode p1 =? 0)%Z eqn:H1.
  2:{ intros _. exists 2, (disable_local_routing_cmd tap), p1.
      split; [reflexivity|]. split; [reflexivity|]. split; [right; reflexivity|].
      split.
      - intros Hz. rewrite Hz in H1. discriminate.
      - rewrite !executed_app. destruct (is_empty (stderr p)); reflexivity. }
  rewrite outcome_prepend, trace_prepend, bind_execute. run_only.
  cbn [check_exit_code arp_del_cmd negb orb snd].
  rewrite outcome_prepend, trace_prepend, bind_warning, outcome_prepend, trace_prepend.
  intros Hr. destruct (IH w3 Hr) as (k & c & q & Hc & Hq & Hchk & Hnz & Hex).
  exists (4 + k), c, q.
  split; [exact Hc|]. split; [exact Hq|]. split; [exact Hchk|]. split; [exact Hnz|].
  rewrite !executed_app, Hex.
  destruct (is_empty (stderr p)), (is_empty (stderr p2)); reflexivity.
Qed.
End RemovalOutcome.

(** C7. [remove_static_route] never returns false and never exits: it
    returns true or it raises. A route deletion or an ARP deletion that
    fails (a route or an entry that is not there) takes no part in that:
    whatever its exit status, the cleanup goes on after it, and it is
    followed by a warning exactly when it left text on its error stream;
    nothing else is logged as a warning. It returns true exactly when, for
    every binding in order, the two disable helpers exit with status zero,
    and then every cleanup command of every binding was executed; it
    raises exactly when one of the helpers exits with another status, and
    then the commands executed are the cleanup commands up to that helper
    and none after it: the remaining steps are not run. On a host where
    only the route and the ARP entry are missing, removal runs the four
    commands, warns after each of the two deletions and returns true. *)
Theorem remove_static_route_true_or_raises :
  (forall (W : Type) (E : env W) (tap : string) (ips : list ip_data)
          (mac : string) (w : W),
      let ops := flat_map (remove_sub_operations tap) ips in
      let r := remove_static_route E tap ips mac w in
      (outcome_of r = Returned true <-> all_succeed E ops w = true) /\
      (outcome_of r = Raised <-> all_succeed E ops w = false) /\
      outcome_of r <> Returned false /\
      outcome_of r <> Exited /\
      (outcome_of r = Returned true -> executed (trace_of r) = map fst ops) /\
      trace_of r = CallRemoveStaticRoute tap ips mac ::
                     run_steps E (flat_map (remove_steps tap) ips) w /\
      (outcome_of r = Raised ->
         exists (k : nat) (c : command) (p : completed),
           map fst ops !! k = Some c /\
           answers E (map fst ops) w !! k = Some p /\
           (c = disable_proxy_arp_cmd tap \/ c = disable_local_routing_cmd tap) /\
           returncode p <> 0%Z /\
           executed (trace_of r) = take (S k) (map fst ops))) /\
  remove_static_route stale_scenario "tapX" [binding "10.65.0.2"]
    "fa:16:3e:00:00:01" tt =
    (Returned true, tt,
     [CallRemoveStaticRoute "tapX" [binding "10.65.0.2"] "fa:16:3e:00:00:01";
      Execute (route_del_cmd "10.65.0.2" "tapX");
      Warn "Unable to remove route for %s via %s" ["10.65.0.2"; "tapX"];
      Execute (disable_proxy_arp_cmd "tapX");
      Execute (disable_local_routing_cmd "tapX");
      Execute (arp_del_cmd "10.65.0.2" "tapX");
      Warn "ARP entry missing for %s" ["10.65.0.2"]]).
Proof.
  split; [|vm_compute; reflexivity].
  intros W E tap ips mac w ops r. subst r.
  rewrite remove_static_route_unfold.
  pose proof (remove_static_route_loop_result E tap ips w) as H. fold ops in H.
  pose proof (remove_static_route_loop_steps E tap ips w) as Hsteps.
  pose proof (remove_static_route_loop_abort E tap ips w) as Habort. fold ops in Habort.
  set (l := remove_static_route_loop E tap ips w) in *.
  change (outcome_of (outcome_of l, world_of l,
                      CallRemoveStaticRoute tap ips mac :: trace_of l))
    with (outcome_of l).
  change (executed (trace_of (outcome_of l, world_of l,
                              CallRemoveStaticRoute tap ips mac :: trace_of l)))
    with (executed (trace_of l)).
  change (trace_of (outcome_of l, world_of l,
                    CallRemoveStaticRoute tap ips mac :: trace_of l))
    with (CallRemoveStaticRoute tap ips mac :: trace_of l).
  rewrite Hsteps.
  destruct (all_succeed E ops w).
  - destruct H as [Ho Ht]. rewrite Ho.
    split; [split; reflexivity|]. split; [split; discriminate|].
    split; [discriminate|]. split; [discriminate|].
    split; [intros _; rewrite <- Hsteps; exact Ht|].
    split; [reflexivity|]. discriminate.
  - rewrite H.
    split; [split; discriminate|]. split; [split; reflexivity|].
    split; [discriminate|]. split; [discriminate|].
    split; [discriminate|]. split; [reflexivity|].
    intros _. rewrite <- Hsteps. apply Habort. exact H.
Qed.

(** C7, as stated, fails: on a host where the tap device is gone, the
    proxy-ARP helper exits with status 1, and [remove_static_route] raises
    after two of the four cleanup commands. *)
Lemma torn_down_removal_raises :
  remove_static_route torn_down_scenario "tapX" [binding "10.65.0.2"]
    "fa:16:3e:00:00:01" tt =
    (Raised, tt,
     [CallRemoveStaticRoute "tapX" [binding "10.65.0.2"] "fa:16:3e:00:00:01";
      Execute (route_del_cmd "10.65.0.2" "tapX");
      Warn "Unable to remove route for %s via %s" ["10.65.0.2"; "tapX"];
      Execute (disable_proxy_arp_cmd "tapX")]).
Proof. vm_compute. reflexivity. Qed.

(** ** What one tick does, and in which order *)

Ltac emits_auto :=
  repeat first
    [ apply emits_ret | apply emits_raise | apply emits_sys_exit
    | apply emits_key | apply emits_if | apply emits_attempt
    | apply emits_emit | apply emits_call | apply emits_execute
    | (apply emits_bind; [| intros ?]) ];
  auto.

Section TickFacts.
Context {W : Type} (E : env W).

Lemma emits_add_static_route_loop (P : event -> Prop) tap mac ips :
  (forall c, P (Execute c)) ->
  forall result, emits P (add_static_route_loop E tap mac ips result).
Proof.
  intros Hc. induction ips as [|d ips IH]; intros result; simpl.
  - apply emits_ret.
  - emits_auto.
Qed.

Lemma emits_add_static_route (P : event -> Prop) tap ips mac :
  (forall c, P (Execute c)) ->
  P (CallAddStaticRoute tap ips mac) ->
  emits P (add_static_route E tap ips mac).
Proof.
  intros Hc Ha. unfold add_static_route. apply emits_bind.
  - apply emits_emit. exact Ha.
  - intros _. apply emits_add_static_route_loop. exact Hc.
Qed.

Lemma emits_configure_added_device (P : event -> Prop) device d :
  (forall c, P (Execute c)) ->
  (forall tap ips mac, P (CallAddStaticRoute tap ips mac)) ->
  P (UpdateDeviceUp device) -> P (UpdateDeviceDown device) ->
  emits P (configure_added_device E device d).
Proof.
  intros Hc Ha Hu Hd. unfold configure_added_device, add_interface.
  destruct (d_port_id d) as [port_id|]; [|apply emits_ret].
  apply emits_bind; [apply emits_key|]. intros admin.
  destruct admin; [|apply emits_ret].
  apply emits_bind; [emits_auto|]. intros seg.
  do 4 (apply emits_bind; [apply emits_key|]; intros ?).
  apply emits_bind; [apply emits_add_static_route; auto|].
  intros ok. emits_auto.
Qed.

Lemma emits_treat_devices_added_loop (P : event -> Prop) devs :
  (forall c, P (Execute c)) ->
  (forall tap ips mac, P (CallAddStaticRoute tap ips mac)) ->
  (forall d, d ∈ devs ->
     P (GetDeviceDetails d) /\ P (UpdateDeviceUp d) /\ P (UpdateDeviceDown d)) ->
  forall resync, emits P (treat_devices_added_loop E devs resync).
Proof.
  intros Hc Ha. induction devs as [|d devs IH]; intros Hd resync; simpl.
  - apply emits_ret.
  - destruct (Hd d) as (Hg & Hu & Hw); [left|].
    assert (Hrest : forall resync, emits P (treat_devices_added_loop E devs resync)).
    { apply IH. intros d' Hd'. apply Hd. right. exact Hd'. }
    apply emits_bind; [emits_auto|]. intros [dt|]; [|apply Hrest].
    apply emits_bind; [apply emits_configure_added_device; auto|].
    intros _. apply Hrest.
Qed.

Lemma emits_treat_devices_removed_loop (P : event -> Prop) devs :
  (forall d, d ∈ devs -> P (UpdateDeviceDown d)) ->
  forall resync, emits P (treat_devices_removed_loop E devs resync).
Proof.
  induction devs as [|d devs IH]; intros Hd resync; simpl.
  - apply emits_ret.
  - assert (Hrest : forall resync, emits P (treat_devices_removed_loop E devs resync)).
    { apply IH. intros d' Hd'. apply Hd. right. exact Hd'. }
    apply emits_bind; [emits_auto; apply Hd; left|].
    intros [dt|]; [|apply Hrest].
    apply emits_bind; [apply emits_key|]. intros _. apply Hrest.
Qed.

(** The loop over a set runs on the order that [iteration_order] gives. *)
Lemma bind_iterate {B} devs (f : list string -> M W B) w :
  bind (iterate E devs) f w = f (iteration_order E devs w) w.
Proof.
  unfold bind, iterate. destruct (f (iteration_order E devs w) w) as [[r w1] t1].
  reflexivity.
Qed.

Lemma elem_of_iteration_order devs w d :
  d ∈ iteration_order E devs w <-> d ∈ devs.
Proof.
  rewrite (iteration_order_visits_all E devs w). apply elem_of_elements.
Qed.

Lemma emits_iterate {B} (P : event -> Prop) devs (f : list string -> M W B) :
  (forall w, emits P (f (iteration_order E devs w))) ->
  emits P (bind (iterate E devs) f).
Proof. intros H w. rewrite bind_iterate. apply H. Qed.

Lemma emits_treat_devices_added (P : event -> Prop) devs :
  (forall c, P (Execute c)) ->
  (forall tap ips mac, P (CallAddStaticRoute tap ips mac)) ->
  P (PrepareDevicesFilter devs) ->
  (forall d, d ∈ devs ->
     P (GetDeviceDetails d) /\ P (UpdateDeviceUp d) /\ P (UpdateDeviceDown d)) ->
  emits P (treat_devices_added E devs).
Proof.
  intros Hc Ha Hp Hd. unfold treat_devices_added.
  apply emits_bind; [apply emits_call; exact Hp|]. intros _.
  apply emits_iterate. intros w.
  apply emits_treat_devices_added_loop; auto.
  intros d Hin. apply Hd. apply (elem_of_iteration_order devs w). exact Hin.
Qed.

Lemma emits_treat_devices_removed (P : event -> Prop) devs :
  P (RemoveDevicesFilter devs) ->
  (forall d, d ∈ devs -> P (UpdateDeviceDown d)) ->
  emits P (treat_devices_removed E devs).
Proof.
  intros Hp Hd. unfold treat_devices_removed.
  apply emits_bind; [apply emits_call; exact Hp|]. intros _.
  apply emits_iterate. intros w.
  apply emits_treat_devices_removed_loop.
  intros d Hin. apply Hd. apply (elem_of_iteration_order devs w). exact Hin.
Qed.

(** No iteration of the loop enters [remove_static_route]. *)
Lemma iteration_never_removes st :
  emits (fun e => is_remove_call e = false) (daemon_loop_iteration E st).
Proof.
  unfold daemon_loop_iteration, update_devices, get_tap_devices.
  apply emits_bind; [emits_auto|]. intros [[di|]|]; try apply emits_ret.
  apply emits_bind; [|intros [r|]; apply emits_ret].
  apply emits_attempt. unfold process_network_devices.
  apply emits_bind; [apply emits_treat_devices_added; auto|]. intros a.
  apply emits_bind; [apply emits_treat_devices_removed; auto|]. intros b.
  apply emits_ret.
Qed.

Lemma count_events_none p t :
  Forall (fun e => p e = false) t -> count_events p t = 0.
Proof.
  unfold count_events. induction 1 as [|e t He _ IH]; [reflexivity|].
  simpl. rewrite He. exact IH.
Qed.

End TickFacts.

(** ** The devices that went away *)

Section RemovedFacts.
Context {W : Type} (E : env W).

Lemma treat_devices_removed_loop_trace devs : forall resync w,
  (exists k, trace_of (treat_devices_removed_loop E devs resync w)
             = map UpdateDeviceDown (take k devs)) /\
  (forall b, outcome_of (treat_devices_removed_loop E devs resync w) = Returned b ->
             trace_of (treat_devices_removed_loop E devs resync w)
             = map UpdateDeviceDown devs).
Proof.
  induction devs as [|d devs IH]; intros resync w.
  - split; [exists 0|]; reflexivity.
  - cbn [treat_devices_removed_loop]. rewrite bind_attempt_call.
    rewrite outcome_prepend, trace_prepend.
    destruct (update_device_down E d w) as [[dt|] w1]; simpl.
    + destruct (d_exists dt) as [ex|]; simpl.
      * rewrite bind_ret_l. destruct (IH resync w1) as [[k Hk] Hall]. split.
        -- exists (S k). simpl. rewrite Hk. reflexivity.
        -- intros b Hb. rewrite (Hall b Hb). reflexivity.
      * split; [exists 1; destruct devs; reflexivity|]. discriminate.
    + destruct (IH true w1) as [[k Hk] Hall]. split.
      * exists (S k). simpl. rewrite Hk. reflexivity.
      * intros b Hb. rewrite (Hall b Hb). reflexivity.
Qed.

(** When every answer of the plugin carries ['exists'], the loop of
    [treat_devices_removed] returns. *)
Lemma treat_devices_removed_loop_returns devs :
  (forall d w dd w', update_device_down E d w = (Some dd, w') -> d_exists dd <> None) ->
  forall resync w,
    exists b, outcome_of (treat_devices_removed_loop E devs resync w) = Returned b.
Proof.
  intros Hans. induction devs as [|d devs IH]; intros resync w.
  - exists resync. reflexivity.
  - cbn [treat_devices_removed_loop]. rewrite bind_attempt_call, outcome_prepend.
    destruct (update_device_down E d w) as [[dt|] w1] eqn:Hd; simpl.
    + destruct (d_exists dt) as [ex|] eqn:Hex; simpl.
      * rewrite bind_ret_l. apply IH.
      * exfalso. exact (Hans d w dt w1 Hd Hex).
    + apply IH.
Qed.

(** [treat_devices_removed] when the filter removal returns and every
    answer carries ['exists']: one report for each device that the loop
    visits. *)
Lemma treat_devices_removed_reports_all devs w w1 :
  remove_devices_filter E devs w = (Some tt, w1) ->
  (forall d w dd w', update_device_down E d w = (Some dd, w') -> d_exists dd <> None) ->
  exists b w2,
    treat_devices_removed E devs w =
      (Returned b, w2,
       RemoveDevicesFilter devs ::
         map UpdateDeviceDown (iteration_order E devs w1)).
Proof.
  intros Hf Hans. unfold treat_devices_removed. rewrite bind_call, Hf, bind_iterate.
  destruct (treat_devices_removed_loop_returns
              (iteration_order E devs w1) Hans false w1) as [b Hb].
  pose proof (proj2 (treat_devices_removed_loop_trace
                       (iteration_order E devs w1) false w1) b Hb) as Ht.
  unfold outcome_of, trace_of in *.
  destruct (treat_devices_removed_loop E (iteration_order E devs w1) false w1)
    as [[r w2] t2]. simpl in *. subst r t2.
  exists b, w2. reflexivity.
Qed.

(** An iteration whose added devices are processed and whose removed
    devices are all reported. *)
Lemma iteration_reports_removed st w w1 w2 w3 di t1 a ta :
  update_devices E (devices (resync_clear st)) w = (Returned (Some di), w1, t1) ->
  treat_devices_added E (added di) w1 = (Returned a, w2, ta) ->
  remove_devices_filter E (removed di) w2 = (Some tt, w3) ->
  (forall d w dd w', update_device_down E d w = (Some dd, w') -> d_exists dd <> None) ->
  exists visited b w4,
    visited ≡ₚ elements (removed di) /\
    daemon_loop_iteration E st w =
      (Returned {| sync := a || b; devices := current di |}, w4,
       t1 ++ ta ++ RemoveDevicesFilter (removed di) :: map UpdateDeviceDown visited).
Proof.
  intros Hup Hadd Hf Hans.
  destruct (treat_devices_removed_reports_all (removed di) w2 w3 Hf Hans)
    as (b & w4 & Hrem).
  exists (iteration_order E (removed di) w3), b, w4.
  split; [apply iteration_order_visits_all|].
  rewrite (iteration_with_delta E st w di w1 t1 Hup).
  unfold process_network_devices, bind. rewrite Hadd, Hrem. simpl.
  rewrite app_nil_r. reflexivity.
Qed.

(** An iteration whose added devices make the processing raise or exit
    does nothing after them. *)
Lemma iteration_skips_removed st w w1 di t1 :
  update_devices E (devices (resync_clear st)) w = (Returned (Some di), w1, t1) ->
  (forall a, outcome_of (treat_devices_added E (added di) w1) <> Returned a) ->
  trace_of (daemon_loop_iteration E st w)
    = t1 ++ trace_of (treat_devices_added E (added di) w1).
Proof.
  intros Hup Hadd. rewrite (iteration_with_delta E st w di w1 t1 Hup).
  unfold process_network_devices, bind, outcome_of, trace_of in *.
  destruct (treat_devices_added E (added di) w1) as [[[a| |] w2] ta]; simpl in *;
    [exfalso; exact (Hadd a eq_refl)|reflexivity|reflexivity].
Qed.

End RemovedFacts.

(** C1. No iteration of the loop enters [remove_static_route]. The
    removed names of a delta are handled after the added ones. When the
    processing of the added names returns, the filter removal for the
    removed batch returns, and every answer of the plugin carries
    ['exists'], the iteration calls the filter removal once for the batch
    and then [update_device_down] once for each removed name, each member
    of the set once in the order the loop visits it, and ends with the
    known set equal to the observed one. When the processing of the
    added names raises or exits, the iteration does nothing after it: no
    removed name is handled. With known [{tapX}] and nothing observed,
    the iteration makes no [remove_static_route] call and one
    [update_device_down] call, and leaves the known set empty. *)
Theorem removed_devices_reported_down :
  (forall (W : Type) (E : env W) (st : loop_state) (w : W),
      count_events is_remove_call (trace_of (daemon_loop_iteration E st w)) = 0) /\
  (forall (W : Type) (E : env W) (st : loop_state) (w w1 w2 w3 : W)
          (di : device_info) (t1 ta : list event) (a : bool),
      update_devices E (devices (resync_clear st)) w = (Returned (Some di), w1, t1) ->
      treat_devices_added E (added di) w1 = (Returned a, w2, ta) ->
      remove_devices_filter E (removed di) w2 = (Some tt, w3) ->
      (forall d w dd w',
          update_device_down E d w = (Some dd, w') -> d_exists dd <> None) ->
      exists visited b w4,
        visited ≡ₚ elements (removed di) /\
        daemon_loop_iteration E st w =
          (Returned {| sync := a || b; devices := current di |}, w4,
           t1 ++ ta ++
             RemoveDevicesFilter (removed di) :: map UpdateDeviceDown visited)) /\
  (forall (W : Type) (E : env W) (st : loop_state) (w w1 : W)
          (di : device_info) (t1 : list event),
      update_devices E (devices (resync_clear st)) w = (Returned (Some di), w1, t1) ->
      (forall a, outcome_of (treat_devices_added E (added di) w1) <> Returned a) ->
      trace_of (daemon_loop_iteration E st w)
        = t1 ++ trace_of (treat_devices_added E (added di) w1)) /\
  daemon_loop_iteration removal_scenario
    {| sync := false; devices := {[ "tapX" ]} |} tt
    = (Returned {| sync := false; devices := ∅ |}, tt,
       [Listdir TAP_FS; PrepareDevicesFilter ∅;
        RemoveDevicesFilter {[ "tapX" ]}; UpdateDeviceDown "tapX"]).
Proof.
  split; [|split; [|split]].
  - intros W E st w. apply count_events_none. apply iteration_never_removes.
  - intros W E st w w1 w2 w3 di t1 ta a.
    apply iteration_reports_removed.
  - intros W E st w w1 di t1. apply iteration_skips_removed.
  - vm_compute. reflexivity.
Qed.

(** [tapB] is known and [tapA] is observed on a healthy host: [tapA] is
    configured and reported up, then [tapB] is reported down. *)
Lemma removed_devices_reported_down_witness :
  exists visited b w4,
    visited ≡ₚ elements ({[ "tapB" ]} : gset string) /\
    daemon_loop_iteration notification_scenario
      {| sync := false; devices := {[ "tapB" ]} |} tt =
      (Returned {| sync := false || b; devices := {[ "tapA" ]} |}, w4,
       [Listdir TAP_FS] ++
       [PrepareDevicesFilter {[ "tapA" ]};
        GetDeviceDetails "tapA";
        CallAddStaticRoute "tapA" [binding "10.65.0.2"] "fa:16:3e:00:00:01";
        Execute (route_add_cmd "10.65.0.2" "tapA");
        Execute (enable_proxy_arp_cmd "tapA");
        Execute (arp_add_cmd "10.65.0.2" "fa:16:3e:00:00:01");
        Execute (enable_local_routing_cmd "tapA");
        UpdateDeviceUp "tapA"] ++
       RemoveDevicesFilter {[ "tapB" ]} :: map UpdateDeviceDown visited).
Proof.
  assert (Hup : update_devices notification_scenario
                  (devices (resync_clear {| sync := false; devices := {[ "tapB" ]} |})) tt
                = (Returned (Some {| current := {[ "tapA" ]}; added := {[ "tapA" ]};
                                     removed := {[ "tapB" ]} |}), tt, [Listdir TAP_FS]))
    by (vm_compute; reflexivity).
  assert (Hadd : treat_devices_added notification_scenario ({[ "tapA" ]} : gset string) tt
                 = (Returned false, tt,
                    [PrepareDevicesFilter {[ "tapA" ]};
                     GetDeviceDetails "tapA";
                     CallAddStaticRoute "tapA" [binding "10.65.0.2"] "fa:16:3e:00:00:01";
                     Execute (route_add_cmd "10.65.0.2" "tapA");
                     Execute (enable_proxy_arp_cmd "tapA");
                     Execute (arp_add_cmd "10.65.0.2" "fa:16:3e:00:00:01");
                     Execute (enable_local_routing_cmd "tapA");
                     UpdateDeviceUp "tapA"]))
    by (vm_compute; reflexivity).
  refine (proj1 (proj2 removed_devices_reported_down) unit notification_scenario
            _ tt tt tt tt _ _ _ false Hup Hadd eq_refl _).
  intros d w dd w' [= <- _]. discriminate.
Defined.

(** C1, as stated, fails: with known [{tapX}] and nothing observed, the
    iteration reports [tapX] down once and leaves the known set empty,
    and the number of [remove_static_route] calls it makes is zero, not
    one. *)
Lemma removal_scenario_no_remove_call :
  let r := daemon_loop_iteration removal_scenario
             {| sync := false; devices := {[ "tapX" ]} |} tt in
  outcome_of r = Returned {| sync := false; devices := ∅ |} /\
  count_events is_report_down (trace_of r) = 1 /\
  count_events is_remove_call (trace_of r) = 0 /\
  count_events is_remove_call (trace_of r) <> 1.
Proof.
  vm_compute. repeat split; discriminate.
Qed.

(** The order of the reports is that of the loop and no property of the
    agent: on a host that visits every set backwards, the same three
    removed devices are reported in the opposite order. *)
Example reports_follow_iteration_order :
  trace_of (treat_devices_removed removal_scenario
              ({[ "tapA"; "tapB"; "tapC" ]} : gset string) tt)
    = RemoveDevicesFilter {[ "tapA"; "tapB"; "tapC" ]} ::
        map UpdateDeviceDown (elements ({[ "tapA"; "tapB"; "tapC" ]} : gset string)) /\
  trace_of (treat_devices_removed (backwards removal_scenario)
              ({[ "tapA"; "tapB"; "tapC" ]} : gset string) tt)
    = RemoveDevicesFilter {[ "tapA"; "tapB"; "tapC" ]} ::
        map UpdateDeviceDown
          (rev (elements ({[ "tapA"; "tapB"; "tapC" ]} : gset string))) /\
  rev (elements ({[ "tapA"; "tapB"; "tapC" ]} : gset string))
    <> elements ({[ "tapA"; "tapB"; "tapC" ]} : gset string).
Proof.
  split; [vm_compute; reflexivity|]. split; [vm_compute; reflexivity|].
  vm_compute. discriminate.
Qed.

(** ** Added devices first *)

Section OrderFacts.
Context {W : Type} (E : env W).

Lemma forallb_negb (p : event -> bool) t :
  Forall (fun e => p e = false) t -> forallb (fun e => negb (p e)) t = true.
Proof.
  induction 1 as [|e t He _ IH]; [reflexivity|].
  simpl. rewrite He, IH. reflexivity.
Qed.

Lemma all_before_none (p q : event -> bool) t :
  Forall (fun e => p e = false) t -> all_before p q t = true.
Proof.
  induction 1 as [|e t He Ht IH]; [reflexivity|].
  simpl. rewrite IH, (forallb_negb p t Ht). destruct (q e); reflexivity.
Qed.

Lemma all_before_skip (p q : event -> bool) t1 t2 :
  Forall (fun e => q e = false) t1 ->
  all_before p q (t1 ++ t2) = all_before p q t2.
Proof.
  induction 1 as [|e t He _ IH]; [reflexivity|].
  simpl. rewrite He, IH. reflexivity.
Qed.

Lemma all_before_app (p q : event -> bool) t1 t2 :
  Forall (fun e => q e = false) t1 ->
  Forall (fun e => p e = false) t2 ->
  all_before p q (t1 ++ t2) = true.
Proof.
  intros H1 H2. rewrite (all_before_skip p q t1 t2 H1).
  apply all_before_none. exact H2.
Qed.

(** The steps for the added names come first in [process_network_devices]
    when no name is both added and removed. *)
Lemma process_network_devices_order di w :
  added di ## removed di ->
  all_before (added_step di) (removed_step di)
    (trace_of (process_network_devices E di w)) = true.
Proof.
  intros Hdisj. unfold process_network_devices.
  destruct (trace_bind_split
              (fun e => removed_step di e = false)
              (fun e => added_step di e = false)
              (treat_devices_added E (added di))
              (fun resync_a =>
                 bind (treat_devices_removed E (removed di))
                      (fun resync_b => ret (resync_a || resync_b))) w)
    as (t1 & t2 & Ht & H1 & H2).
  - apply emits_treat_devices_added; try reflexivity.
    intros d Hd. repeat split; try reflexivity.
    simpl. apply bool_decide_eq_false. intros Hr.
    exact (proj1 (elem_of_disjoint _ _) Hdisj d Hd Hr).
  - intros a. apply emits_bind; [|intros b; apply emits_ret].
    apply emits_treat_devices_removed; [reflexivity|].
    intros d Hd. simpl. apply bool_decide_eq_false. intros Ha.
    exact (proj1 (elem_of_disjoint _ _) Hdisj d Ha Hd).
  - rewrite Ht. apply all_before_app; assumption.
Qed.

(** The delta that [update_devices] answers is the one of [device_delta],
    and observing is all it did. *)
Lemma update_devices_delta A w di w1 t1 :
  update_devices E A w = (Returned (Some di), w1, t1) ->
  (exists B, device_delta B A = Some di) /\ t1 = [Listdir TAP_FS].
Proof.
  unfold update_devices, get_tap_devices. rewrite bind_assoc, bind_call.
  destruct (listdir E TAP_FS w) as [[names|] w2]; [|discriminate].
  rewrite !bind_ret_l. unfold ret, prepend. simpl.
  intros [= Hd <- <-]. split; [eexists; exact Hd|reflexivity].
Qed.

End OrderFacts.

(** C2. In every iteration that computed a delta, the steps taken for
    the added names (the filter preparation, the lookups, the calls of
    [add_static_route] with every command they run, and the status
    reports) all stand before the steps taken for the removed names (the
    filter removal and the reports that they are down): the added names
    are processed, configuration included, first. *)
Theorem added_before_removed :
  forall (W : Type) (E : env W) (st : loop_state) (w w1 : W)
         (di : device_info) (t1 : list event),
    update_devices E (devices (resync_clear st)) w = (Returned (Some di), w1, t1) ->
    all_before (added_step di) (removed_step di)
      (trace_of (daemon_loop_iteration E st w)) = true.
Proof.
  intros W E st w w1 di t1 Hup.
  destruct (update_devices_delta E _ w di w1 t1 Hup) as [[B HB] ->].
  rewrite (iteration_with_delta E st w di w1 _ Hup).
  pose proof (process_network_devices_order E di w1
                (device_delta_disjoint _ _ di HB)) as Hord.
  unfold trace_of in *.
  destruct (process_network_devices E di w1) as [[[r| |] w2] t2]; exact Hord.
Qed.

(** [tapB] is known and [tapA] is observed on a healthy host: the lookup
    of [tapA], its four configuration commands and its report stand
    before the filter removal and the report that [tapB] is down. *)
Lemma added_before_removed_witness :
  all_before
    (added_step {| current := {[ "tapA" ]}; added := {[ "tapA" ]}; removed := {[ "tapB" ]} |})
    (removed_step {| current := {[ "tapA" ]}; added := {[ "tapA" ]}; removed := {[ "tapB" ]} |})
    (trace_of (daemon_loop_iteration notification_scenario
                 {| sync := false; devices := {[ "tapB" ]} |} tt)) = true /\
  trace_of (daemon_loop_iteration notification_scenario
              {| sync := false; devices := {[ "tapB" ]} |} tt)
    = [Listdir TAP_FS; PrepareDevicesFilter {[ "tapA" ]}; GetDeviceDetails "tapA";
       CallAddStaticRoute "tapA" [binding "10.65.0.2"] "fa:16:3e:00:00:01";
       Execute (route_add_cmd "10.65.0.2" "tapA");
       Execute (enable_proxy_arp_cmd "tapA");
       Execute (arp_add_cmd "10.65.0.2" "fa:16:3e:00:00:01");
       Execute (enable_local_routing_cmd "tapA");
       UpdateDeviceUp "tapA";
       RemoveDevicesFilter {[ "tapB" ]}; UpdateDeviceDown "tapB"].
Proof.
  split; [|vm_compute; reflexivity].
  apply (added_before_removed unit notification_scenario
           {| sync := false; devices := {[ "tapB" ]} |} tt tt
           {| current := {[ "tapA" ]}; added := {[ "tapA" ]}; removed := {[ "tapB" ]} |}
           [Listdir TAP_FS]).
  vm_compute. reflexivity.
Defined.

(** C2, as stated, fails: with [tapB] known and [tapA] observed, the
    delta has [tapA] added and [tapB] removed, and the iteration looks
    [tapA] up before it reports [tapB] down. *)
Lemma churn_added_first :
  device_delta {[ "tapA" ]} {[ "tapB" ]}
    = Some {| current := {[ "tapA" ]}; added := {[ "tapA" ]}; removed := {[ "tapB" ]} |} /\
  trace_of (daemon_loop_iteration churn_scenario
              {| sync := false; devices := {[ "tapB" ]} |} tt)
    = [Listdir TAP_FS; PrepareDevicesFilter {[ "tapA" ]}; GetDeviceDetails "tapA";
       RemoveDevicesFilter {[ "tapB" ]}; UpdateDeviceDown "tapB"] /\
  all_before
    (removed_step {| current := {[ "tapA" ]}; added := {[ "tapA" ]}; removed := {[ "tapB" ]} |})
    (added_step {| current := {[ "tapA" ]}; added := {[ "tapA" ]}; removed := {[ "tapB" ]} |})
    (trace_of (daemon_loop_iteration churn_scenario
                 {| sync := false; devices := {[ "tapB" ]} |} tt)) = false.
Proof.
  split; [vm_compute; reflexivity|]. split; vm_compute; reflexivity.
Qed.

(** * Further properties of the agent *)

(** ** Device names *)

Lemma substring_0_length n : forall s,
  String.length (substring 0 n s) = Nat.min n (String.length s).
Proof.
  induction n as [|n IH]; intros [|c s]; simpl; try reflexivity.
  rewrite IH. reflexivity.
Qed.

Lemma substring_0_short n : forall s,
  String.length s <= n -> substring 0 n s = s.
Proof.
  induction n as [|n IH]; intros [|c s] Hlen; simpl in *; try reflexivity.
  - lia.
  - rewrite IH by lia. reflexivity.
Qed.

Lemma substring_0_app : forall a x, substring 0 (String.length a) (a +:+ x) = a.
Proof.
  induction a as [|c a IH]; intros x; simpl.
  - destruct x; reflexivity.
  - rewrite IH. reflexivity.
Qed.

Lemma tap_device_name_unfold id :
  get_tap_device_name id =
    String "t" (String "a" (String "p" (substring 0 11 id))).
Proof. reflexivity. Qed.

(** X1. The device name of a port is [tap] followed by the first eleven
    characters of the port id: it starts with the prefix that
    [get_tap_devices] filters on, and it has three characters more than
    the id, fourteen at most. *)
Theorem tap_device_name_shape :
  forall id : string,
    String.prefix TAP_INTERFACE_PREFIX (get_tap_device_name id) = true /\
    String.length (get_tap_device_name id) = 3 + Nat.min 11 (String.length id) /\
    String.length (get_tap_device_name id) <= 14.
Proof.
  intros id. rewrite tap_device_name_unfold.
  split; [destruct (substring 0 11 id); reflexivity|].
  simpl String.length. rewrite substring_0_length. split; lia.
Qed.

(** X2. Port ids of at most eleven characters get distinct device names,
    and two ids that share their first eleven characters get the same
    one, whatever follows. *)
Theorem tap_device_name_collisions :
  (forall a b : string,
      String.length a <= 11 -> String.length b <= 11 ->
      get_tap_device_name a = get_tap_device_name b -> a = b) /\
  (forall a x y : string,
      String.length a = 11 ->
      get_tap_device_name (a +:+ x) = get_tap_device_name (a +:+ y)).
Proof.
  split.
  - intros a b Ha Hb. rewrite !tap_device_name_unfold.
    rewrite (substring_0_short 11 a Ha), (substring_0_short 11 b Hb).
    intros [= ->]. reflexivity.
  - intros a x y Ha. rewrite !tap_device_name_unfold.
    rewrite <- Ha, !substring_0_app. reflexivity.
Qed.

(** Two Neutron port ids that differ after the eleventh character. *)
Lemma tap_device_name_collisions_witness :
  get_tap_device_name "0a1b2c3d-4e5f-1111" = get_tap_device_name "0a1b2c3d-4e-2222".
Proof.
  exact (proj2 tap_device_name_collisions "0a1b2c3d-4e" "5f-1111" "-2222" eq_refl).
Defined.

(** ** Observing the devices *)

Section ObservationFacts.
Context {W : Type} (E : env W).

Lemma get_tap_devices_run w :
  get_tap_devices E w =
    match listdir E TAP_FS w with
    | (Some names, w1) =>
        (Returned (list_to_set
                     (List.filter (String.prefix TAP_INTERFACE_PREFIX) names)),
         w1, [Listdir TAP_FS])
    | (None, w1) => (Raised, w1, [Listdir TAP_FS])
    end.
Proof.
  unfold get_tap_devices. rewrite bind_call.
  destruct (listdir E TAP_FS w) as [[names|] w1]; reflexivity.
Qed.

Lemma elem_of_tap_filter (names : list string) d :
  d ∈ (list_to_set (List.filter (String.prefix TAP_INTERFACE_PREFIX) names) : gset string)
  <-> d ∈ names /\ String.prefix TAP_INTERFACE_PREFIX d = true.
Proof.
  rewrite elem_of_list_to_set, !list_elem_of_In. apply filter_In.
Qed.

End ObservationFacts.

(** X3. [get_tap_devices] lists [TAP_FS] once and does nothing else. When
    the listing succeeds it returns the set of the listed names that
    start with [tap], whatever the order of the listing and however often
    a name is listed; when the listing raises, so does it. *)
Theorem get_tap_devices_filters_prefix :
  forall (W : Type) (E : env W) (w : W),
    match listdir E TAP_FS w with
    | (Some names, w1) =>
        exists devs : gset string,
          get_tap_devices E w = (Returned devs, w1, [Listdir TAP_FS]) /\
          forall d, d ∈ devs <->
                    d ∈ names /\ String.prefix TAP_INTERFACE_PREFIX d = true
    | (None, w1) => get_tap_devices E w = (Raised, w1, [Listdir TAP_FS])
    end.
Proof.
  intros W E w. rewrite get_tap_devices_run.
  destruct (listdir E TAP_FS w) as [[names|] w1]; [|reflexivity].
  eexists. split; [reflexivity|]. intros d. apply elem_of_tap_filter.
Qed.

(** X4. A delta is a change: when [update_devices] computes one, no name
    is both added and removed, every added name is observed, no removed
    name is, and at least one name is added or removed. *)
Theorem delta_is_a_change :
  forall (A B : gset string) (di : device_info),
    device_delta B A = Some di ->
    added di ## removed di /\
    added di ⊆ current di /\
    removed di ## current di /\
    (added di <> ∅ \/ removed di <> ∅).
Proof.
  intros A B di Hd. pose proof (device_delta_disjoint A B di Hd) as Hdisj.
  unfold device_delta in Hd. case_decide as Hne; [discriminate|].
  injection Hd as <-. simpl. split; [exact Hdisj|].
  split; [intros x; rewrite elem_of_difference; tauto|].
  split; [apply elem_of_disjoint; intros x; rewrite elem_of_difference; tauto|].
  destruct (decide (B ∖ A = ∅)) as [Ha|Ha]; [|left; exact Ha].
  destruct (decide (A ∖ B = ∅)) as [Hr|Hr]; [|right; exact Hr].
  exfalso. apply Hne. apply set_eq. intros x.
  assert (H1 : x ∉ B ∖ A) by (rewrite Ha; apply not_elem_of_empty).
  assert (H2 : x ∉ A ∖ B) by (rewrite Hr; apply not_elem_of_empty).
  rewrite elem_of_difference in H1, H2.
  destruct (decide (x ∈ A)), (decide (x ∈ B)); tauto.
Qed.

(** [tapB] is known and [tapA] is observed. *)
Lemma delta_is_a_change_witness :
  ({[ "tapA" ]} : gset string) ## ({[ "tapB" ]} : gset string).
Proof.
  assert (Hd : device_delta ({[ "tapA" ]} : gset string) ({[ "tapB" ]} : gset string)
               = Some {| current := {[ "tapA" ]}; added := {[ "tapA" ]};
                         removed := {[ "tapB" ]} |})
    by (vm_compute; reflexivity).
  exact (proj1 (delta_is_a_change _ _ _ Hd)).
Defined.

(** ** The batch of removed devices *)

Section RemovedBatchFacts.
Context {W : Type} (E : env W).

(** One step of the loop of [treat_devices_removed]. *)
Lemma treat_devices_removed_loop_cons device rest resync w :
  treat_devices_removed_loop E (device :: rest) resync w =
    match update_device_down E device w with
    | (None, w1) =>
        prepend [UpdateDeviceDown device] (treat_devices_removed_loop E rest true w1)
    | (Some d, w1) =>
        match d_exists d with
        | Some _ =>
            prepend [UpdateDeviceDown device]
              (treat_devices_removed_loop E rest resync w1)
        | None => (Raised, w1, [UpdateDeviceDown device])
        end
    end.
Proof.
  cbn [treat_devices_removed_loop]. rewrite bind_attempt_call.
  destruct (update_device_down E device w) as [[d|] w1]; simpl; [|reflexivity].
  destruct (d_exists d) as [ex|]; simpl.
  - rewrite bind_ret_l. reflexivity.
  - reflexivity.
Qed.

Lemma treat_devices_removed_loop_app pre post resync w :
  treat_devices_removed_loop E (pre ++ post) resync w =
    match treat_devices_removed_loop E pre resync w with
    | (Returned r1, w1, t1) => prepend t1 (treat_devices_removed_loop E post r1 w1)
    | other => other
    end.
Proof.
  revert resync w. induction pre as [|d pre IH]; intros resync w.
  - simpl. rewrite prepend_nil. reflexivity.
  - rewrite <- app_comm_cons, !treat_devices_removed_loop_cons.
    destruct (update_device_down E d w) as [[dt|] w1].
    + destruct (d_exists dt) as [ex|]; [|reflexivity].
      rewrite IH.
      destruct (treat_devices_removed_loop E pre resync w1) as [[[r1| |] w3] t3];
        reflexivity.
    + rewrite IH.
      destruct (treat_devices_removed_loop E pre true w1) as [[[r1| |] w3] t3];
        reflexivity.
Qed.

Lemma treat_devices_removed_loop_sticky devs w b :
  outcome_of (treat_devices_removed_loop E devs true w) = Returned b -> b = true.
Proof.
  revert w. induction devs as [|d devs IH]; intros w.
  - simpl. intros [= <-]. reflexivity.
  - rewrite treat_devices_removed_loop_cons.
    destruct (update_device_down E d w) as [[dt|] w1]; [|apply IH].
    destruct (d_exists dt) as [ex|]; [apply IH|discriminate].
Qed.

Lemma treat_devices_removed_loop_never_exits devs : forall resync w,
  outcome_of (treat_devices_removed_loop E devs resync w) <> Exited.
Proof.
  induction devs as [|d devs IH]; intros resync w.
  - discriminate.
  - rewrite treat_devices_removed_loop_cons.
    destruct (update_device_down E d w) as [[dt|] w1]; [|apply IH].
    destruct (d_exists dt) as [ex|]; [apply IH|discriminate].
Qed.

End RemovedBatchFacts.

(** X5. In a batch of removed devices, a report that raises is caught:
    for that device nothing is done beyond the report, the devices after
    it are reported as a batch of their own with the resync flag set, and
    a batch that returns returns true. The batch never exits the
    process. *)
Theorem report_failure_is_absorbed :
  forall (W : Type) (E : env W) (pre post : list string) (device : string)
         (resync r1 : bool) (w w1 w2 : W) (t1 : list event),
    treat_devices_removed_loop E pre resync w = (Returned r1, w1, t1) ->
    update_device_down E device w1 = (None, w2) ->
    treat_devices_removed_loop E (pre ++ device :: post) resync w =
      prepend (t1 ++ [UpdateDeviceDown device])
        (treat_devices_removed_loop E post true w2) /\
    (forall b,
        outcome_of (treat_devices_removed_loop E (pre ++ device :: post) resync w)
          = Returned b -> b = true) /\
    outcome_of (treat_devices_removed_loop E (pre ++ device :: post) resync w)
      <> Exited.
Proof.
  intros W E pre post device resync r1 w w1 w2 t1 Hpre Hfail.
  assert (Heq : treat_devices_removed_loop E (pre ++ device :: post) resync w =
      prepend (t1 ++ [UpdateDeviceDown device])
        (treat_devices_removed_loop E post true w2)).
  { rewrite treat_devices_removed_loop_app, Hpre.
    rewrite treat_devices_removed_loop_cons, Hfail.
    apply prepend_prepend. }
  split; [exact Heq|]. split.
  - intros b. rewrite Heq. apply treat_devices_removed_loop_sticky.
  - apply treat_devices_removed_loop_never_exits.
Qed.

(** Two devices went away and the report of the first one times out. *)
Lemma report_failure_is_absorbed_witness :
  treat_devices_removed_loop partial_failure_scenario ["tapD"; "tapE"] false tt =
    (Returned true, tt, [UpdateDeviceDown "tapD"; UpdateDeviceDown "tapE"]).
Proof.
  pose proof (proj1 (report_failure_is_absorbed unit partial_failure_scenario
                [] ["tapE"] "tapD" false false tt tt tt [] eq_refl eq_refl)) as H.
  vm_compute in H. vm_compute. exact H.
Defined.

(** ** The batch of added devices *)

Section AddedBatchFacts.
Context {W : Type} (E : env W).

Lemma filter_prepend {A} (p : event -> bool) t (r : outcome A * W * list event) :
  List.filter p (trace_of (prepend t r))
    = List.filter p t ++ List.filter p (trace_of r).
Proof. unfold prepend, trace_of. simpl. apply List.filter_app. Qed.

Lemma filter_none (p : event -> bool) t :
  Forall (fun e => p e = false) t -> List.filter p t = [].
Proof.
  induction 1 as [|e t He _ IH]; [reflexivity|].
  simpl. rewrite He. exact IH.
Qed.

(** What follows a successful lookup contains no lookup. *)
Lemma configure_added_device_no_lookup device d w :
  List.filter is_lookup (trace_of (configure_added_device E device d w)) = [].
Proof.
  apply filter_none.
  apply (emits_configure_added_device E (fun e => is_lookup e = false));
    reflexivity.
Qed.

Lemma treat_devices_added_loop_lookups devs : forall resync w,
  (exists k, List.filter is_lookup (trace_of (treat_devices_added_loop E devs resync w))
             = map GetDeviceDetails (take k devs)) /\
  (forall b, outcome_of (treat_devices_added_loop E devs resync w) = Returned b ->
             List.filter is_lookup (trace_of (treat_devices_added_loop E devs resync w))
             = map GetDeviceDetails devs).
Proof.
  induction devs as [|d devs IH]; intros resync w.
  - split; [exists 0|]; reflexivity.
  - rewrite treat_devices_added_loop_cons.
    destruct (get_device_details E d w) as [[dt|] w1].
    + pose proof (configure_added_device_no_lookup d dt w1) as Hc.
      unfold trace_of in Hc.
      destruct (configure_added_device E d dt w1) as [[[[]| |] w2] t2]; simpl in Hc.
      * rewrite filter_prepend, outcome_prepend. simpl. rewrite Hc. simpl.
        destruct (IH resync w2) as [[k Hk] Hall]. split.
        -- exists (S k). simpl. rewrite Hk. reflexivity.
        -- intros b Hb. rewrite (Hall b Hb). reflexivity.
      * split; [|discriminate]. exists 1. unfold trace_of. simpl. rewrite Hc.
        destruct devs; reflexivity.
      * split; [|discriminate]. exists 1. unfold trace_of. simpl. rewrite Hc.
        destruct devs; reflexivity.
    + rewrite filter_prepend, outcome_prepend. simpl.
      destruct (IH true w1) as [[k Hk] Hall]. split.
      * exists (S k). simpl. rewrite Hk. reflexivity.
      * intros b Hb. rewrite (Hall b Hb). reflexivity.
Qed.

End AddedBatchFacts.

(** The lookups of an initial part of a list without repetition. *)
Lemma lookups_no_dup (visited : list string) (k : nat) :
  NoDup visited -> NoDup (map GetDeviceDetails (take k visited)).
Proof.
  intros Hnd.
  assert (Hinj : Inj eq eq GetDeviceDetails) by (intros a b [= Hab]; exact Hab).
  apply (NoDup_fmap_2 GetDeviceDetails).
  exact (sublist_NoDup _ _ Hnd (sublist_take visited k)).
Qed.

(** X6. [treat_devices_added] looks every device of the batch up at most
    once, and no other device: whatever the order in which the loop visits
    the set, the lookups it makes are those of an initial part of that
    order, which has every member of the batch once; no lookup is made
    twice; and when the batch returns every member was looked up. *)
Theorem added_devices_looked_up_once :
  forall (W : Type) (E : env W) (devs : gset string) (w : W),
    exists visited : list string,
      visited ≡ₚ elements devs /\
      (exists k,
          List.filter is_lookup (trace_of (treat_devices_added E devs w))
          = map GetDeviceDetails (take k visited)) /\
      NoDup (List.filter is_lookup (trace_of (treat_devices_added E devs w))) /\
      (forall b,
          outcome_of (treat_devices_added E devs w) = Returned b ->
          List.filter is_lookup (trace_of (treat_devices_added E devs w))
          = map GetDeviceDetails visited).
Proof.
  intros W E devs w. unfold treat_devices_added. rewrite bind_call.
  destruct (prepare_devices_filter E devs w) as [[[]|] w1].
  - exists (iteration_order E devs w1).
    pose proof (iteration_order_visits_all E devs w1) as Hperm.
    split; [exact Hperm|].
    rewrite bind_iterate, filter_prepend, outcome_prepend. simpl.
    destruct (treat_devices_added_loop_lookups E (iteration_order E devs w1) false w1)
      as [[k Hk] Hall].
    split; [exists k; exact Hk|]. split; [|exact Hall].
    rewrite Hk. apply lookups_no_dup. rewrite Hperm. apply NoDup_elements.
  - exists (elements devs). split; [reflexivity|].
    split; [exists 0; reflexivity|]. split; [constructor|discriminate].
Qed.

(** ** One added device *)

Section AddedDeviceFacts.
Context {W : Type} (E : env W).

Lemma bind_raise_l {A B} (f : A -> M W B) w : bind raise f w = (Raised, w, []).
Proof. reflexivity. Qed.

Lemma bind_sys_exit_l {A B} (f : A -> M W B) w : bind sys_exit f w = (Exited, w, []).
Proof. reflexivity. Qed.

Lemma trace_bind {A B} (m : M W A) (f : A -> M W B) w :
  trace_of (bind m f w) =
    match m w with
    | (Returned a, w1, t1) => t1 ++ trace_of (f a w1)
    | (_, _, t1) => t1
    end.
Proof.
  unfold trace_of, bind. destruct (m w) as [[[a| |] w1] t1]; try reflexivity.
  destruct (f a w1) as [[r w2] t2]. reflexivity.
Qed.

(** When [add_static_route] returns true, every sub-operation succeeded. *)
Lemma add_static_route_returned_true tap ips mac w :
  outcome_of (add_static_route E tap ips mac w) = Returned true ->
  all_succeed E (flat_map (add_sub_operations E tap mac) ips) w = true.
Proof.
  unfold add_static_route. rewrite outcome_bind. simpl.
  rewrite (add_static_route_loop_outcome E tap mac ips true w).
  destruct (all_succeed E (map exit_only _) w); [|discriminate].
  simpl. intros [= H]. exact H.
Qed.

Lemma add_static_route_no_report tap ips mac w :
  Forall (fun e => is_plugin_report e = false)
    (trace_of (add_static_route E tap ips mac w)).
Proof.
  apply (emits_add_static_route E (fun e => is_plugin_report e = false));
    reflexivity.
Qed.

(** The configuration of a device whose details are complete. *)
Lemma configure_added_device_complete device d w pid net phys ips mac :
  d_port_id d = Some pid -> d_admin_state_up d = Some true ->
  truthy (d_network_type d) = true ->
  d_network_id d = Some net -> d_physical_network d = Some phys ->
  d_fixed_ips d = Some ips -> d_mac_address d = Some mac ->
  configure_added_device E device d w =
    bind (add_static_route E (get_tap_device_name pid) ips mac)
      (fun ok : bool =>
         if ok then call (UpdateDeviceUp device) (update_device_up E device)
         else bind (call (UpdateDeviceDown device) (update_device_down E device))
                (fun _ => ret tt)) w.
Proof.
  intros Hp Ha Hn Hnet Hphys Hips Hmac. unfold configure_added_device.
  rewrite Hp, Ha, Hn, Hnet, Hphys, Hips, Hmac. unfold key, add_interface.
  rewrite !bind_ret_l. reflexivity.
Qed.

(** The configuration of a device does nothing when a key is missing, the
    port is down or the network type is missing. *)
Lemma configure_added_device_incomplete device d w :
  d_port_id d = None \/ d_admin_state_up d <> Some true \/
  truthy (d_network_type d) = false \/
  d_network_id d = None \/ d_physical_network d = None \/
  d_fixed_ips d = None \/ d_mac_address d = None ->
  trace_of (configure_added_device E device d w) = [].
Proof.
  intros H. unfold configure_added_device, key.
  destruct (d_port_id d) as [pid|]; [|reflexivity].
  destruct (d_admin_state_up d) as [[|]|]; try reflexivity.
  rewrite bind_ret_l.
  destruct (truthy (d_network_type d)); [|reflexivity].
  rewrite bind_ret_l.
  destruct (d_network_id d) as [net|]; [|reflexivity]. rewrite bind_ret_l.
  destruct (d_physical_network d) as [phys|]; [|reflexivity]. rewrite bind_ret_l.
  destruct (d_fixed_ips d) as [ips|]; [|reflexivity]. rewrite bind_ret_l.
  destruct (d_mac_address d) as [mac|]; [|reflexivity].
  exfalso. intuition congruence.
Qed.

End AddedDeviceFacts.

(** X7. The loop reports an added device up only after every
    sub-operation of every binding succeeded: if the processing of a
    device calls [update_device_up], it does so for that device, the
    details had a port id, bindings and a MAC address, and on the host as
    it was, every command of [add_static_route] for those passed its
    test. *)
Theorem reported_up_only_after_success :
  forall (W : Type) (E : env W) (device : string) (d : details) (w : W)
         (e : string),
    In (UpdateDeviceUp e) (trace_of (configure_added_device E device d w)) ->
    e = device /\
    exists port_id fixed_ips mac,
      d_port_id d = Some port_id /\ d_fixed_ips d = Some fixed_ips /\
      d_mac_address d = Some mac /\
      all_succeed E
        (flat_map (add_sub_operations E (get_tap_device_name port_id) mac) fixed_ips)
        w = true.
Proof.
  intros W E device d w e Hin.
  destruct (d_port_id d) as [pid|] eqn:Hp;
    [|rewrite configure_added_device_incomplete in Hin by auto; contradiction].
  destruct (d_admin_state_up d) as [[|]|] eqn:Ha;
    try (rewrite configure_added_device_incomplete in Hin
           by (right; left; congruence); contradiction).
  destruct (truthy (d_network_type d)) eqn:Hn;
    [|rewrite configure_added_device_incomplete in Hin by auto; contradiction].
  destruct (d_network_id d) as [net|] eqn:Hnet;
    [|rewrite configure_added_device_incomplete in Hin by auto 6; contradiction].
  destruct (d_physical_network d) as [phys|] eqn:Hphys;
    [|rewrite configure_added_device_incomplete in Hin by auto 6; contradiction].
  destruct (d_fixed_ips d) as [ips|] eqn:Hips;
    [|rewrite configure_added_device_incomplete in Hin by auto 7; contradiction].
  destruct (d_mac_address d) as [mac|] eqn:Hmac;
    [|rewrite configure_added_device_incomplete in Hin by auto 8; contradiction].
  rewrite (configure_added_device_complete E device d w pid net phys ips mac)
    in Hin by assumption.
  rewrite trace_bind in Hin.
  pose proof (add_static_route_no_report E (get_tap_device_name pid) ips mac w) as Hno.
  pose proof (add_static_route_returned_true E (get_tap_device_name pid) ips mac w)
    as Hok.
  unfold trace_of, outcome_of in Hno, Hok.
  destruct (add_static_route E (get_tap_device_name pid) ips mac w)
    as [[[ok| |] w1] t1]; simpl in Hno, Hok.
  - apply in_app_or in Hin. destruct Hin as [Hin|Hin].
    + rewrite List.Forall_forall in Hno. specialize (Hno _ Hin). discriminate.
    + destruct ok.
      * unfold call, trace_of in Hin.
        destruct (update_device_up E device w1) as [[[]|] w2]; simpl in Hin;
          destruct Hin as [[= <-]|[]];
          (split; [reflexivity|]); exists pid, ips, mac; auto.
      * rewrite trace_bind in Hin. unfold call in Hin.
        destruct (update_device_down E device w1) as [[dd|] w2]; simpl in Hin;
          intuition discriminate.
  - rewrite List.Forall_forall in Hno. specialize (Hno _ Hin). discriminate.
  - rewrite List.Forall_forall in Hno. specialize (Hno _ Hin). discriminate.
Qed.

(** [tapA] on a healthy host: it is reported up, and every command passed
    its test. *)
Lemma reported_up_only_after_success_witness :
  all_succeed lookup_timeout_scenario
    (flat_map (add_sub_operations lookup_timeout_scenario
                 (get_tap_device_name "A") "fa:16:3e:00:00:01")
       [binding "10.65.0.2"]) tt = true.
Proof.
  destruct (reported_up_only_after_success unit lookup_timeout_scenario "tapA"
              (port "A" "10.65.0.2" "fa:16:3e:00:00:01") tt "tapA")
    as [_ (pid & ips & mac & Hp & Hi & Hm & Hall)].
  - vm_compute. auto 10.
  - injection Hp as <-. injection Hi as <-. injection Hm as <-. exact Hall.
Defined.

(** X8. A port that is up and comes without a network type makes the
    agent exit: the loop over the added devices ends at that device, with
    no command run and no report made for it, and the devices after it
    are not looked at. *)
Theorem missing_network_type_exits :
  forall (W : Type) (E : env W) (device : string) (rest : list string)
         (resync : bool) (w w1 : W) (d : details) (port_id : string),
    get_device_details E device w = (Some d, w1) ->
    d_port_id d = Some port_id ->
    d_admin_state_up d = Some true ->
    truthy (d_network_type d) = false ->
    treat_devices_added_loop E (device :: rest) resync w
      = (Exited, w1, [GetDeviceDetails device]).
Proof.
  intros W E device rest resync w w1 d port_id Hl Hp Ha Hn.
  rewrite treat_devices_added_loop_cons, Hl.
  unfold configure_added_device, key. rewrite Hp, Ha, Hn.
  rewrite bind_ret_l. reflexivity.
Qed.

(** Two devices appeared and the plugin answers without a network type:
    the iteration exits at the first lookup. *)
Lemma missing_network_type_exits_witness :
  treat_devices_added_loop old_plugin_scenario ["tapA"; "tapB"] false tt
    = (Exited, tt, [GetDeviceDetails "tapA"]) /\
  outcome_of (daemon_loop_iteration old_plugin_scenario
                {| sync := true; devices := ∅ |} tt) = Exited.
Proof.
  split.
  - exact (missing_network_type_exits unit old_plugin_scenario "tapA" ["tapB"]
             false tt tt port_without_network_type "A"
             eq_refl eq_refl eq_refl eq_refl).
  - vm_compute. reflexivity.
Defined.

(** X9. A device that the plugin does not know (no port id in the
    answer) or whose port is administratively down is left alone: after
    the lookup nothing is done for it, and the loop goes on with the
    resync flag as it was. *)
Theorem inactive_device_is_skipped :
  forall (W : Type) (E : env W) (device : string) (rest : list string)
         (resync : bool) (w w1 : W) (d : details),
    get_device_details E device w = (Some d, w1) ->
    d_port_id d = None \/
    (d_port_id d <> None /\ d_admin_state_up d = Some false) ->
    treat_devices_added_loop E (device :: rest) resync w
      = prepend [GetDeviceDetails device]
          (treat_devices_added_loop E rest resync w1).
Proof.
  intros W E device rest resync w w1 d Hl Hd.
  rewrite treat_devices_added_loop_cons, Hl.
  assert (Hc : configure_added_device E device d w1 = (Returned tt, w1, [])).
  { unfold configure_added_device, key.
    destruct Hd as [->|[Hp ->]]; [reflexivity|].
    destruct (d_port_id d); [reflexivity|congruence]. }
  rewrite Hc. reflexivity.
Qed.

(** A device that the plugin does not know, followed by nothing. *)
Lemma inactive_device_is_skipped_witness :
  treat_devices_added_loop churn_scenario ["tapA"] false tt
    = (Returned false, tt, [GetDeviceDetails "tapA"]).
Proof.
  pose proof (inactive_device_is_skipped unit churn_scenario "tapA" [] false tt tt
                unknown_port eq_refl (or_introl eq_refl)) as H.
  vm_compute in H. exact H.
Defined.

(** ** The loop as a whole *)

Section DaemonFacts.
Context {W : Type} (E : env W).

Lemma attempt_never_raises {A} (m : M W A) w : outcome_of (attempt m w) <> Raised.
Proof.
  unfold attempt, outcome_of. destruct (m w) as [[[a| |] w1] t1]; discriminate.
Qed.

Lemma daemon_loop_iteration_never_raises st w :
  outcome_of (daemon_loop_iteration E st w) <> Raised.
Proof.
  unfold daemon_loop_iteration. rewrite outcome_bind.
  pose proof (attempt_never_raises (update_devices E (devices (resync_clear st))) w) as H.
  unfold outcome_of in H.
  destruct (attempt (update_devices E (devices (resync_clear st))) w)
    as [[[[[di|]|]| |] w1] t1]; simpl in *; try discriminate; try congruence.
  rewrite outcome_bind.
  pose proof (attempt_never_raises (process_network_devices E di) w1) as H1.
  unfold outcome_of in H1.
  destruct (attempt (process_network_devices E di) w1) as [[[[r|]| |] w2] t2];
    simpl in *; try discriminate; congruence.
Qed.

Lemma process_network_devices_no_listing di :
  emits (fun e => is_listdir e = false) (process_network_devices E di).
Proof.
  unfold process_network_devices.
  apply emits_bind; [apply emits_treat_devices_added; auto|]. intros a.
  apply emits_bind; [apply emits_treat_devices_removed; auto|]. intros b.
  apply emits_ret.
Qed.

End DaemonFacts.

(** X10. No exception leaves the loop: an iteration of [daemon_loop]
    returns or exits the process, it never raises, and so does any number
    of iterations; an iteration that exits is the last one. *)
Theorem daemon_loop_never_raises :
  forall (W : Type) (E : env W) (n : nat) (st : loop_state) (w : W),
    outcome_of (daemon_loop_iteration E st w) <> Raised /\
    outcome_of (daemon_loop_from E n st w) <> Raised /\
    (outcome_of (daemon_loop_iteration E st w) = Exited ->
     daemon_loop_from E (S n) st w = daemon_loop_iteration E st w).
Proof.
  intros W E n st w. split; [apply daemon_loop_iteration_never_raises|]. split.
  - revert st w. induction n as [|n IH]; intros st w; [discriminate|].
    cbn [daemon_loop_from]. rewrite outcome_bind.
    pose proof (daemon_loop_iteration_never_raises E st w) as H.
    unfold outcome_of in H.
    destruct (daemon_loop_iteration E st w) as [[[st'| |] w1] t1]; simpl in *;
      [apply IH | congruence | discriminate].
  - cbn [daemon_loop_from]. unfold outcome_of, bind.
    destruct (daemon_loop_iteration E st w) as [[[st'| |] w1] t1]; simpl;
      try discriminate. reflexivity.
Qed.

(** X11. When an iteration ends with the resync flag clear, the known
    set is what that iteration observed: the listing succeeded, and the
    known set is the set of the listed names that start with [tap]. *)
Theorem in_sync_known_is_observed :
  forall (W : Type) (E : env W) (st st' : loop_state) (w w' : W)
         (t' : list event),
    daemon_loop_iteration E st w = (Returned st', w', t') ->
    sync st' = false ->
    exists names w1,
      listdir E TAP_FS w = (Some names, w1) /\
      devices st'
        = list_to_set (List.filter (String.prefix TAP_INTERFACE_PREFIX) names).
Proof.
  intros W E st st' w w' t' Hit Hs.
  destruct (listdir E TAP_FS w) as [[names|] w1] eqn:Hls.
  - exists names, w1. split; [reflexivity|].
    set (B := list_to_set (List.filter (String.prefix TAP_INTERFACE_PREFIX) names)
              : gset string).
    pose proof (update_devices_observed E (devices (resync_clear st)) w names w1 Hls)
      as Hup. fold B in Hup.
    destruct (decide (B = devices (resync_clear st))) as [Heq|Hne].
    + rewrite (iteration_no_delta E st w names w1 Hls Heq) in Hit.
      injection Hit as <- _ _. symmetry. exact Heq.
    + rewrite (device_delta_some _ _ Hne) in Hup.
      rewrite (iteration_with_delta E st w _ w1 _ Hup) in Hit.
      destruct (process_network_devices E _ w1) as [[[r| |] w2] t2];
        try discriminate.
      * injection Hit as <- _ _. reflexivity.
      * injection Hit as <- _ _. discriminate.
  - rewrite (iteration_discovery_failure E st w w1 Hls) in Hit.
    injection Hit as <- _ _. discriminate.
Qed.

(** [tapX] is known, nothing is observed, the report arrives: the
    iteration ends in sync with the empty set. *)
Lemma in_sync_known_is_observed_witness :
  exists names w1,
    listdir removal_scenario TAP_FS tt = (Some names, w1) /\
    (∅ : gset string)
      = list_to_set (List.filter (String.prefix TAP_INTERFACE_PREFIX) names).
Proof.
  assert (Hit : daemon_loop_iteration removal_scenario
                  {| sync := false; devices := {[ "tapX" ]} |} tt
                = (Returned {| sync := false; devices := ∅ |}, tt,
                   [Listdir TAP_FS; PrepareDevicesFilter ∅;
                    RemoveDevicesFilter {[ "tapX" ]}; UpdateDeviceDown "tapX"]))
    by (vm_compute; reflexivity).
  exact (in_sync_known_is_observed unit removal_scenario _ _ tt tt _ Hit eq_refl).
Defined.

(** X12. Every iteration observes the host exactly once, before it does
    anything else: its trace starts with the listing of [TAP_FS] and has
    no other listing. *)
Theorem one_listing_per_iteration :
  forall (W : Type) (E : env W) (st : loop_state) (w : W),
    exists t,
      trace_of (daemon_loop_iteration E st w) = Listdir TAP_FS :: t /\
      count_events is_listdir t = 0.
Proof.
  intros W E st w.
  destruct (listdir E TAP_FS w) as [[names|] w1] eqn:Hls.
  - pose proof (update_devices_observed E (devices (resync_clear st)) w names w1 Hls)
      as Hup.
    destruct (device_delta _ (devices (resync_clear st))) as [di|] eqn:Hd.
    + rewrite (iteration_with_delta E st w di w1 _ Hup).
      pose proof (process_network_devices_no_listing E di w1) as Hno.
      unfold trace_of in *.
      destruct (process_network_devices E di w1) as [[[r| |] w2] t2];
        simpl in *; exists t2; (split; [reflexivity|]);
        apply count_events_none; exact Hno.
    + exists []. split; [|reflexivity].
      unfold daemon_loop_iteration, bind, attempt. rewrite Hup. reflexivity.
  - exists []. split; [|reflexivity].
    rewrite (iteration_discovery_failure E st w w1 Hls). reflexivity.
Qed.

(** X13. When the directory of the devices cannot be read, the iteration
    sets the resync flag, keeps the known set as the resync step left it,
    and calls neither the plugin nor the host. *)
Theorem discovery_failure_sets_resync :
  forall (W : Type) (E : env W) (st : loop_state) (w w1 : W),
    listdir E TAP_FS w = (None, w1) ->
    daemon_loop_iteration E st w =
      (Returned {| sync := true; devices := devices (resync_clear st) |},
       w1, [Listdir TAP_FS]).
Proof. intros W E st w w1 Hls. apply iteration_discovery_failure. exact Hls. Qed.

Lemma discovery_failure_sets_resync_witness :
  daemon_loop_iteration unreadable_scenario
    {| sync := false; devices := {[ "tapA" ]} |} tt =
    (Returned {| sync := true; devices := {[ "tapA" ]} |}, tt, [Listdir TAP_FS]).
Proof.
  exact (discovery_failure_sets_resync unit unreadable_scenario
           {| sync := false; devices := {[ "tapA" ]} |} tt tt eq_refl).
Defined.

(** X14. When the observed set is the known set, the iteration does
    nothing after the listing: no filter, no lookup, no command, no
    report; the known set stays and the resync flag is clear. *)
Theorem unchanged_devices_do_nothing :
  forall (W : Type) (E : env W) (st : loop_state) (w w1 : W)
         (names : list string),
    listdir E TAP_FS w = (Some names, w1) ->
    list_to_set (List.filter (String.prefix TAP_INTERFACE_PREFIX) names)
      = devices (resync_clear st) ->
    daemon_loop_iteration E st w
      = (Returned {| sync := false; devices := devices (resync_clear st) |},
         w1, [Listdir TAP_FS]).
Proof.
  intros W E st w w1 names Hls Heq.
  rewrite (iteration_no_delta E st w names w1 Hls Heq).
  unfold resync_clear. destruct st as [[|] devs]; reflexivity.
Qed.

(** Nothing is known and no tap device is listed. *)
Lemma unchanged_devices_do_nothing_witness :
  daemon_loop_iteration removal_scenario {| sync := true; devices := {[ "tapX" ]} |} tt
    = (Returned {| sync := false; devices := ∅ |}, tt, [Listdir TAP_FS]).
Proof.
  exact (unchanged_devices_do_nothing unit removal_scenario
           {| sync := true; devices := {[ "tapX" ]} |} tt tt ["lo"; "eth0"]
           eq_refl eq_refl).
Defined.

(** ** The commands of the configurator *)

Section CommandFacts.
Context {W : Type} (E : env W).

Lemma executed_prepend {A} t (r : outcome A * W * list event) :
  executed (trace_of (prepend t r)) = executed t ++ executed (trace_of r).
Proof. rewrite trace_prepend. apply executed_app. Qed.

(** The commands that the loop of [add_static_route] executed are an
    initial part of the commands of the bindings, and all of them when it
    returns. *)
Lemma add_static_route_loop_commands tap mac ips : forall result w,
  (exists k,
      executed (trace_of (add_static_route_loop E tap mac ips result w))
      = take k (map fst (flat_map (add_sub_operations E tap mac) ips))) /\
  (forall b,
      outcome_of (add_static_route_loop E tap mac ips result w) = Returned b ->
      executed (trace_of (add_static_route_loop E tap mac ips result w))
      = map fst (flat_map (add_sub_operations E tap mac) ips)).
Proof.
  induction ips as [|d ips IH]; intros result w.
  - split; [exists 0|]; reflexivity.
  - cbn [add_static_route_loop flat_map]. unfold add_sub_operations.
    fold (add_sub_operations E tap mac).
    rewrite bind_execute. run_only. cbn [route_add_cmd check_exit_code negb orb].
    destruct (valid_ipv6 E (ip_address d)) eqn:Hv.
    + rewrite !bind_assoc, bind_execute. run_only.
      cbn [neigh_add_cmd check_exit_code negb orb].
      destruct (exit_zero p0);
        [|split; [exists 2; reflexivity|discriminate]].
      rewrite bind_ret_l, bind_execute. run_only.
      cbn [enable_local_routing_cmd check_exit_code negb orb].
      destruct (exit_zero p1);
        [|split; [exists 3; reflexivity|discriminate]].
      rewrite !outcome_prepend, !executed_prepend.
      match goal with |- context [add_static_route_loop E tap mac ips ?r ?w'] =>
        destruct (IH r w') as [[k Hk] Hall] end.
      split.
      * exists (3 + k). rewrite Hk. reflexivity.
      * intros b Hb. rewrite (Hall b Hb). reflexivity.
    + rewrite !bind_assoc, bind_execute. run_only.
      cbn [enable_proxy_arp_cmd check_exit_code negb orb].
      destruct (exit_zero p0);
        [|split; [exists 2; reflexivity|discriminate]].
      rewrite !bind_assoc, bind_execute. run_only.
      cbn [arp_add_cmd check_exit_code negb orb].
      destruct (exit_zero p1);
        [|split; [exists 3; reflexivity|discriminate]].
      rewrite bind_ret_l, bind_execute. run_only.
      cbn [enable_local_routing_cmd check_exit_code negb orb].
      destruct (exit_zero p2);
        [|split; [exists 4; reflexivity|discriminate]].
      rewrite !outcome_prepend, !executed_prepend.
      match goal with |- context [add_static_route_loop E tap mac ips ?r ?w'] =>
        destruct (IH r w') as [[k Hk] Hall] end.
      split.
      * exists (4 + k). rewrite Hk. reflexivity.
      * intros b Hb. rewrite (Hall b Hb). reflexivity.
Qed.
(** The loop of [add_static_route] over two lists of bindings. *)
Lemma add_static_route_loop_app tap mac ips1 ips2 : forall result w,
  add_static_route_loop E tap mac (ips1 ++ ips2) result w =
    match add_static_route_loop E tap mac ips1 result w with
    | (Returned r1, w1, t1) =>
        prepend t1 (add_static_route_loop E tap mac ips2 r1 w1)
    | other => other
    end.
Proof.
  induction ips1 as [|d ips1 IH]; intros result w.
  - simpl. rewrite prepend_nil. reflexivity.
  - rewrite <- app_comm_cons. cbn [add_static_route_loop].
    rewrite !bind_execute. run_step.
    destruct (valid_ipv6 E (ip_address d)) eqn:Hv.
    + rewrite !bind_assoc, !bind_execute. run_step.
      destruct (exit_zero p0); [|reflexivity].
      rewrite !bind_ret_l, !bind_execute. run_step.
      destruct (exit_zero p1); [|reflexivity].
      rewrite IH.
      destruct (add_static_route_loop E tap mac ips1 _ w2) as [[[r1| |] w3] t3];
        rewrite ?prepend_prepend; reflexivity.
    + rewrite !bind_assoc, !bind_execute. run_step.
      destruct (exit_zero p0); [|reflexivity].
      rewrite !bind_assoc, !bind_execute. run_step.
      destruct (exit_zero p1); [|reflexivity].
      rewrite !bind_ret_l, !bind_execute. run_step.
      destruct (exit_zero p2); [|reflexivity].
      rewrite IH.
      destruct (add_static_route_loop E tap mac ips1 _ w3) as [[[r1| |] w4] t4];
        rewrite ?prepend_prepend; reflexivity.
Qed.

Lemma add_static_route_run tap ips mac w :
  add_static_route E tap ips mac w =
    prepend [CallAddStaticRoute tap ips mac]
      (add_static_route_loop E tap mac ips true w).
Proof. unfold add_static_route. apply bind_emit. Qed.

End CommandFacts.

(** X15. [add_static_route] executes, for each binding in order, the
    route add, then the neighbour add for an IPv6 address or the
    proxy-ARP helper and [arp -s] for an IPv4 address, then the
    local-routing helper, and nothing else: what it executed is always an
    initial part of that list, and the whole list when it returns. *)
Theorem add_static_route_commands :
  forall (W : Type) (E : env W) (tap : string) (ips : list ip_data)
         (mac : string) (w : W),
    (exists k,
        executed (trace_of (add_static_route E tap ips mac w))
        = take k (map fst (flat_map (add_sub_operations E tap mac) ips))) /\
    (forall b,
        outcome_of (add_static_route E tap ips mac w) = Returned b ->
        executed (trace_of (add_static_route E tap ips mac w))
        = map fst (flat_map (add_sub_operations E tap mac) ips)).
Proof.
  intros W E tap ips mac w. rewrite add_static_route_run.
  rewrite outcome_prepend, executed_prepend. simpl.
  apply add_static_route_loop_commands.
Qed.

(** X16. Configuring two lists of bindings in one call succeeds exactly
    when configuring the first list succeeds and configuring the second
    list, on the host as the first call left it, succeeds. *)
Theorem add_static_route_app :
  forall (W : Type) (E : env W) (tap : string) (ips1 ips2 : list ip_data)
         (mac : string) (w : W),
    outcome_of (add_static_route E tap (ips1 ++ ips2) mac w) = Returned true <->
    outcome_of (add_static_route E tap ips1 mac w) = Returned true /\
    outcome_of (add_static_route E tap ips2 mac
                  (world_of (add_static_route E tap ips1 mac w))) = Returned true.
Proof.
  intros W E tap ips1 ips2 mac w. rewrite !add_static_route_run.
  rewrite !outcome_prepend. unfold world_of at 1. simpl.
  rewrite add_static_route_loop_app.
  destruct (add_static_route_loop E tap mac ips1 true w) as [[[r1| |] w1] t1];
    simpl; try (split; [discriminate|intros [H _]; discriminate]).
  rewrite outcome_prepend.
  rewrite (add_static_route_loop_outcome E tap mac ips2 r1 w1).
  rewrite (add_static_route_loop_outcome E tap mac ips2 true w1).
  destruct (all_succeed E (map exit_only _) w1);
    [|split; [discriminate|intros [_ H]; discriminate]].
  destruct r1; simpl; split.
  - intros H. split; [reflexivity|exact H].
  - intros [_ H]. exact H.
  - discriminate.
  - intros [H _]. discriminate.
Qed.

(** X17. [add_interface] and [remove_interface] look at the port id, the
    bindings and the MAC address only, and at no more than the first
    eleven characters of the port id: two calls that agree on those do
    the same, whatever the network id, the network type, the physical
    network and the segmentation id. *)
Theorem interface_calls_depend_on_id_prefix :
  forall (W : Type) (E : env W) (port_id port_id' : string)
         (ips : list ip_data) (mac : string) (w : W),
    substring 0 11 port_id = substring 0 11 port_id' ->
    (forall net nt phys seg net' nt' phys' seg',
        add_interface E net nt phys seg port_id ips mac w
        = add_interface E net' nt' phys' seg' port_id' ips mac w) /\
    (forall net nt phys seg net' nt' phys' seg',
        remove_interface E net nt phys seg port_id ips mac w
        = remove_interface E net' nt' phys' seg' port_id' ips mac w).
Proof.
  intros W E port_id port_id' ips mac w Hp.
  assert (Hn : get_tap_device_name port_id = get_tap_device_name port_id').
  { rewrite !tap_device_name_unfold, Hp. reflexivity. }
  split; intros; unfold add_interface, remove_interface; rewrite Hn; reflexivity.
Qed.

(** Two port ids that differ after the eleventh character. *)
Lemma interface_calls_depend_on_id_prefix_witness :
  add_interface notification_scenario "net-1" (Some "flat") "physnet1" None
    "0a1b2c3d-4e5f-1111" [binding "10.65.0.2"] "fa:16:3e:00:00:01" tt
  = add_interface notification_scenario "net-2" None "physnet2" (Some "7")
      "0a1b2c3d-4e-2222" [binding "10.65.0.2"] "fa:16:3e:00:00:01" tt.
Proof.
  exact (proj1 (interface_calls_depend_on_id_prefix unit notification_scenario
                  "0a1b2c3d-4e5f-1111" "0a1b2c3d-4e-2222"
                  [binding "10.65.0.2"] "fa:16:3e:00:00:01" tt eq_refl)
           "net-1" (Some "flat") "physnet1" None "net-2" None "physnet2" (Some "7")).
Defined.

(** ** Port updates *)

Section CallbackFacts.
Context {W : Type} (E : env W) (C : callbacks_env W).

Lemma emits_quiet_call {A} (P : event -> Prop) (f : W -> option A * W) :
  emits P (quiet_call f).
Proof.
  intros w. unfold quiet_call, trace_of.
  destruct (f w) as [[a|] w1]; constructor.
Qed.

Lemma emits_except_timeout (P : event -> Prop) (m : M W unit) :
  emits P m -> emits P (except_timeout C m).
Proof.
  intros Hm w. specialize (Hm w). unfold except_timeout, trace_of in *.
  destruct (m w) as [[[a| |] w1] t1]; simpl in *; try exact Hm.
  destruct (_ && _); exact Hm.
Qed.

Lemma emits_get_tap_devices (P : event -> Prop) :
  P (Listdir TAP_FS) -> emits P (get_tap_devices E).
Proof.
  intros Hl. unfold get_tap_devices.
  apply emits_bind; [apply emits_call; exact Hl|]. intros names. apply emits_ret.
Qed.

Lemma emits_remove_static_route_loop (P : event -> Prop) tap ips :
  (forall c, P (Execute c)) -> (forall m a, P (Warn m a)) ->
  emits P (remove_static_route_loop E tap ips).
Proof.
  intros Hc Hw. induction ips as [|d ips IH]; simpl.
  - apply emits_ret.
  - emits_auto.
Qed.

Lemma emits_remove_static_route (P : event -> Prop) tap ips mac :
  (forall c, P (Execute c)) -> (forall m a, P (Warn m a)) ->
  P (CallRemoveStaticRoute tap ips mac) ->
  emits P (remove_static_route E tap ips mac).
Proof.
  intros Hc Hw Hr. unfold remove_static_route.
  apply emits_bind; [apply emits_emit; exact Hr|]. intros _.
  apply emits_remove_static_route_loop; assumption.
Qed.

Lemma emits_bind_ret {A B} (P : event -> Prop) (a : A) (f : A -> M W B) :
  emits P (f a) -> emits P (bind (ret a) f).
Proof. intros H w. rewrite bind_ret_l. apply H. Qed.

Lemma emits_bind_raise {A B} (P : event -> Prop) (f : A -> M W B) :
  emits P (bind raise f).
Proof. intros w. constructor. Qed.

(** What [port_update] can emit, by the administrative state of the
    port. *)
Lemma emits_port_update (P : event -> Prop) kw :
  P (Listdir TAP_FS) ->
  (admin_state_of kw = Some true ->
   (forall c, P (Execute c)) /\ (forall tap ips mac, P (CallAddStaticRoute tap ips mac)) /\
   (forall d, P (UpdateDeviceUp d)) /\ (forall d, P (UpdateDeviceDown d))) ->
  (admin_state_of kw = Some false ->
   (forall c, P (Execute c)) /\ (forall m a, P (Warn m a)) /\
   (forall tap ips mac, P (CallRemoveStaticRoute tap ips mac)) /\
   (forall d, P (UpdateDeviceDown d))) ->
  emits P (port_update E C kw).
Proof.
  intros Hl Hup Hdown. unfold port_update, admin_state_of in *.
  destruct (k_port kw) as [port|]; cbn [key]; [|apply emits_bind_raise].
  apply emits_bind_ret.
  apply emits_bind; [apply emits_key|]. intros pid.
  apply emits_bind; [apply emits_get_tap_devices; exact Hl|]. intros devs.
  apply emits_if; [|apply emits_ret].
  apply emits_bind; [apply emits_if; [apply emits_quiet_call|apply emits_ret]|].
  intros _. apply emits_except_timeout. unfold port_update_body.
  destruct (p_admin_state_up port) as [[|]|]; cbn [key];
    [| |apply emits_bind_raise]; apply emits_bind_ret.
  - destruct (Hup eq_refl) as (Hc & Ha & Hu & Hd).
    apply emits_bind; [emits_auto|]. intros seg.
    do 3 (apply emits_bind; [apply emits_key|]; intros ?).
    apply emits_bind; [apply emits_add_static_route; auto|].
    intros ok. emits_auto.
  - destruct (Hdown eq_refl) as (Hc & Hw & Hr & Hd).
    do 3 (apply emits_bind; [apply emits_key|]; intros ?).
    apply emits_bind; [apply emits_remove_static_route; auto|].
    intros _. emits_auto.
Qed.

End CallbackFacts.

(** X18. A port update does what the administrative state of the port
    asks for and nothing of the opposite: it enters [add_static_route] or
    reports the port up only for a port that is up, and it enters
    [remove_static_route] only for a port that is down. *)
Theorem port_update_follows_admin_state :
  forall (W : Type) (E : env W) (C : callbacks_env W)
         (kw : port_update_kwargs) (w : W) (e : event),
    In e (trace_of (port_update E C kw w)) ->
    ((is_add_call e || is_report_up e) = true -> admin_state_of kw = Some true) /\
    (is_remove_call e = true -> admin_state_of kw = Some false).
Proof.
  intros W E C kw w e Hin. split; intros He.
  - destruct (admin_state_of kw) as [[|]|] eqn:Ha; [reflexivity| |];
      exfalso;
      pose proof (emits_port_update E C
                    (fun e => (is_add_call e || is_report_up e) = false) kw
                    eq_refl) as H;
      rewrite Ha in H;
      (assert (Hall : Forall (fun e => (is_add_call e || is_report_up e) = false)
                        (trace_of (port_update E C kw w)))
         by (apply H; [discriminate|intros _; repeat split; reflexivity]));
      rewrite List.Forall_forall in Hall; specialize (Hall e Hin); congruence.
  - destruct (admin_state_of kw) as [[|]|] eqn:Ha; [|reflexivity|];
      exfalso;
      pose proof (emits_port_update E C (fun e => is_remove_call e = false) kw
                    eq_refl) as H;
      rewrite Ha in H;
      (assert (Hall : Forall (fun e => is_remove_call e = false)
                        (trace_of (port_update E C kw w)))
         by (apply H; [intros _; repeat split; reflexivity|discriminate]));
      rewrite List.Forall_forall in Hall; specialize (Hall e Hin); congruence.
Qed.

(** The port of [tapA] is set down: the update enters
    [remove_static_route], and the port is down indeed. *)
Lemma port_update_follows_admin_state_witness :
  admin_state_of (update_of (port_A false)) = Some false.
Proof.
  apply (proj2 (port_update_follows_admin_state unit notification_scenario
                  no_firewall_trouble (update_of (port_A false)) tt
                  (CallRemoveStaticRoute "tapA" [binding "10.65.0.2"]
                     "fa:16:3e:00:00:01")
                  ltac:(vm_compute; auto))).
  reflexivity.
Defined.

Section PortUpdateFacts.
Context {W : Type} (E : env W) (C : callbacks_env W).

(** [port_update] once the message is read and the devices are listed. *)
Lemma port_update_listed kw port pid w names w1 :
  k_port kw = Some port -> p_id port = Some pid ->
  listdir E TAP_FS w = (Some names, w1) ->
  port_update E C kw w =
    prepend [Listdir TAP_FS]
      (if bool_decide (get_tap_device_name pid ∈
           (list_to_set (List.filter (String.prefix TAP_INTERFACE_PREFIX) names)
              : gset string))
       then bind (if p_security_groups port then quiet_call (refresh_firewall C)
                  else ret tt)
              (fun _ => except_timeout C
                          (port_update_body E kw port pid (get_tap_device_name pid)))
              w1
       else ret tt w1).
Proof.
  intros Hk Hp Hls. unfold port_update. rewrite Hk. cbn [key].
  rewrite bind_ret_l, Hp. cbn [key]. rewrite bind_ret_l.
  rewrite (bind_returned (get_tap_devices E) _ w
             (list_to_set (List.filter (String.prefix TAP_INTERFACE_PREFIX) names))
             w1 [Listdir TAP_FS]);
    [|rewrite get_tap_devices_run, Hls; reflexivity].
  destruct (bool_decide _); reflexivity.
Qed.

(** A trace without status report does not end in one. *)
Lemma last_no_report t :
  Forall (fun e => is_plugin_report e = false) t ->
  match last t with Some e => is_plugin_report e | None => false end = false.
Proof.
  induction 1 as [|e t He Ht IH]; [reflexivity|].
  destruct t as [|e' t]; [exact He|exact IH].
Qed.

(** The [try] of [port_update] around a configuration that is followed by
    one status report. *)
Lemma except_timeout_then_report (m : M W bool) (k : bool -> M W unit)
    (report : bool -> event) (answer : bool -> W -> bool * W) w :
  emits (fun e => is_plugin_report e = false) m ->
  (forall ok, is_plugin_report (report ok) = true) ->
  (forall ok w3,
      k ok w3 = ((if (answer ok w3).1 then Returned tt else Raised),
                 (answer ok w3).2, [report ok])) ->
  except_timeout C (bind m k) w =
    match m w with
    | (Returned ok, w3, t) =>
        ((if (answer ok w3).1 || timed_out C (answer ok w3).2
          then Returned tt else Raised),
         (answer ok w3).2, t ++ [report ok])
    | (Raised, w3, t) => (Raised, w3, t)
    | (Exited, w3, t) => (Exited, w3, t)
    end.
Proof.
  intros Hm Hr Hk. specialize (Hm w). unfold except_timeout, bind, trace_of in *.
  destruct (m w) as [[[ok| |] w3] t]; simpl in *.
  - rewrite (Hk ok w3). destruct (answer ok w3) as [[|] w4]; simpl; [reflexivity|].
    rewrite last_snoc, (Hr ok). simpl. destruct (timed_out C w4); reflexivity.
  - rewrite (last_no_report t Hm). reflexivity.
  - reflexivity.
Qed.

(** A status report, as [delivered] reads its answer. *)
Lemma call_delivered {A} (e : event) (f : W -> option A * W) w :
  bind (call e f) (fun _ => ret tt) w =
    ((if (delivered (f w)).1 then Returned tt else Raised), (delivered (f w)).2, [e]).
Proof.
  unfold bind, call, delivered, ret. destruct (f w) as [[a|] w1]; reflexivity.
Qed.

Lemma call_unit_delivered (e : event) (f : W -> option unit * W) w :
  call e f w =
    ((if (delivered (f w)).1 then Returned tt else Raised), (delivered (f w)).2, [e]).
Proof.
  unfold call, delivered. destruct (f w) as [[[]|] w1]; reflexivity.
Qed.

Lemma remove_static_route_no_report tap ips mac w :
  Forall (fun e => is_plugin_report e = false)
    (trace_of (remove_static_route E tap ips mac w)).
Proof.
  apply (emits_remove_static_route E (fun e => is_plugin_report e = false));
    reflexivity.
Qed.

(** The [try] looks at what its body does only. *)
Lemma except_timeout_ext (m m' : M W unit) w :
  m w = m' w -> except_timeout C m w = except_timeout C m' w.
Proof. intros H. unfold except_timeout. rewrite H. reflexivity. Qed.

(** [port_update] for a port that is on this host and whose message is
    complete. *)
Lemma port_update_configures_then_reports
    kw port pid net mac ips (up : bool) names w w1 w2 :
  k_port kw = Some port -> p_id port = Some pid ->
  p_admin_state_up port = Some up ->
  (up = true -> truthy (k_network_type kw) = true) ->
  p_network_id port = Some net -> p_fixed_ips port = Some ips ->
  p_mac_address port = Some mac ->
  listdir E TAP_FS w = (Some names, w1) ->
  In (get_tap_device_name pid) names ->
  (if p_security_groups port then refresh_firewall C w1 = (Some tt, w2) else w2 = w1) ->
  let tap := get_tap_device_name pid in
  match (if up then add_static_route E tap ips mac w2
         else remove_static_route E tap ips mac w2) with
  | (Returned ok, w3, t) =>
      let answer := if up && ok then delivered (update_device_up E tap w3)
                    else delivered (update_device_down E tap w3) in
      port_update E C kw w =
        ((if answer.1 || timed_out C answer.2 then Returned tt else Raised),
         answer.2,
         Listdir TAP_FS :: t ++
           [if up && ok then UpdateDeviceUp tap else UpdateDeviceDown tap])
  | (Raised, w3, t) => port_update E C kw w = (Raised, w3, Listdir TAP_FS :: t)
  | (Exited, w3, t) => port_update E C kw w = (Exited, w3, Listdir TAP_FS :: t)
  end.
Proof.
  intros Hk Hp Ha Hnt Hn Hf Hmac Hls Hin Hsg tap.
  rewrite (port_update_listed kw port pid w names w1 Hk Hp Hls).
  rewrite bool_decide_eq_true_2.
  2:{ rewrite elem_of_tap_filter, list_elem_of_In. split; [exact Hin|].
      rewrite tap_device_name_unfold. destruct (substring 0 11 pid); reflexivity. }
  assert (Hfw : bind (if p_security_groups port then quiet_call (refresh_firewall C)
                      else ret tt)
                  (fun _ => except_timeout C (port_update_body E kw port pid tap)) w1
                = except_timeout C (port_update_body E kw port pid tap) w2).
  { destruct (p_security_groups port).
    - unfold bind, quiet_call. rewrite Hsg.
      destruct (except_timeout C _ w2) as [[r w3] t3]. reflexivity.
    - subst w2. rewrite bind_ret_l. reflexivity. }
  fold tap. rewrite Hfw. clear Hfw.
  destruct up.
  - rewrite (except_timeout_ext _
               (bind (add_static_route E tap ips mac)
                  (fun ok : bool =>
                     if ok then call (UpdateDeviceUp tap) (update_device_up E tap)
                     else bind (call (UpdateDeviceDown tap) (update_device_down E tap))
                            (fun _ => ret tt)))).
    2:{ unfold port_update_body, add_interface. rewrite Ha. cbn [key].
        rewrite bind_ret_l, (Hnt eq_refl), bind_ret_l, Hn, Hf, Hmac. cbn [key].
        rewrite !bind_ret_l. reflexivity. }
    rewrite (except_timeout_then_report _ _
               (fun ok : bool => if ok then UpdateDeviceUp tap else UpdateDeviceDown tap)
               (fun (ok : bool) w3 =>
                  if ok then delivered (update_device_up E tap w3)
                  else delivered (update_device_down E tap w3))).
    + destruct (add_static_route E tap ips mac w2) as [[[[|]| |] w3] t]; reflexivity.
    + intros w'. apply add_static_route_no_report.
    + intros [|]; reflexivity.
    + intros [|] w3; [apply call_unit_delivered|apply call_delivered].
  - rewrite (except_timeout_ext _
               (bind (remove_static_route E tap ips mac)
                  (fun _ : bool =>
                     bind (call (UpdateDeviceDown tap) (update_device_down E tap))
                       (fun _ => ret tt)))).
    2:{ unfold port_update_body, remove_interface. rewrite Ha. cbn [key].
        rewrite bind_ret_l, Hn, Hf, Hmac. cbn [key].
        rewrite !bind_ret_l. reflexivity. }
    rewrite (except_timeout_then_report _ _
               (fun _ : bool => UpdateDeviceDown tap)
               (fun (_ : bool) w3 => delivered (update_device_down E tap w3))).
    + destruct (remove_static_route E tap ips mac w2) as [[[ok| |] w3] t]; reflexivity.
    + intros w'. apply remove_static_route_no_report.
    + reflexivity.
    + intros _ w3. apply call_delivered.
Qed.
End PortUpdateFacts.

(** X19. A port update for a port whose tap device is not on this host
    does nothing but list the devices: no firewall refresh, no command,
    no report, and it returns. *)
Theorem port_update_absent_device :
  forall (W : Type) (E : env W) (C : callbacks_env W)
         (kw : port_update_kwargs) (port : port_dict) (port_id : string)
         (w w1 : W) (names : list string),
    k_port kw = Some port -> p_id port = Some port_id ->
    listdir E TAP_FS w = (Some names, w1) ->
    ~ In (get_tap_device_name port_id) names ->
    port_update E C kw w = (Returned tt, w1, [Listdir TAP_FS]).
Proof.
  intros W E C kw port port_id w w1 names Hk Hp Hls Hnot.
  rewrite (port_update_listed E C kw port port_id w names w1 Hk Hp Hls).
  rewrite bool_decide_eq_false_2; [reflexivity|].
  rewrite elem_of_tap_filter, list_elem_of_In. tauto.
Qed.

(** A port whose device [tapA] is not among [lo] and [eth0]. *)
Lemma port_update_absent_device_witness :
  port_update removal_scenario no_firewall_trouble (update_of (port_A true)) tt
    = (Returned tt, tt, [Listdir TAP_FS]).
Proof.
  apply (port_update_absent_device unit removal_scenario no_firewall_trouble
           (update_of (port_A true)) (port_A true) "A" tt tt ["lo"; "eth0"]
           eq_refl eq_refl eq_refl).
  vm_compute. intuition discriminate.
Defined.

(** X20. In [port_update], for a port whose tap device is on this host
    and whose message is complete, only a status report that times out is
    absorbed. The update configures the port ([add_static_route] when it
    is up, [remove_static_route] when it is down) and then sends one
    report: up when the port is up and the configuration returned true,
    down otherwise. It returns when the report is delivered or times out
    and raises when the report fails in another way. When the
    configuration itself raises (a checked command exits with a status
    other than zero), [port_update] raises and no report is sent, whatever
    the RPC layer would say of a timeout. *)
Theorem port_update_swallows_timeouts :
  forall (W : Type) (E : env W) (C : callbacks_env W)
         (kw : port_update_kwargs) (port : port_dict) (pid net mac : string)
         (ips : list ip_data) (up : bool) (names : list string) (w w1 w2 : W),
    k_port kw = Some port -> p_id port = Some pid ->
    p_admin_state_up port = Some up ->
    (up = true -> truthy (k_network_type kw) = true) ->
    p_network_id port = Some net -> p_fixed_ips port = Some ips ->
    p_mac_address port = Some mac ->
    listdir E TAP_FS w = (Some names, w1) ->
    In (get_tap_device_name pid) names ->
    (if p_security_groups port then refresh_firewall C w1 = (Some tt, w2)
     else w2 = w1) ->
    let tap := get_tap_device_name pid in
    match (if up then add_static_route E tap ips mac w2
           else remove_static_route E tap ips mac w2) with
    | (Returned ok, w3, t) =>
        let answer := if up && ok then delivered (update_device_up E tap w3)
                      else delivered (update_device_down E tap w3) in
        port_update E C kw w =
          ((if answer.1 || timed_out C answer.2 then Returned tt else Raised),
           answer.2,
           Listdir TAP_FS :: t ++
             [if up && ok then UpdateDeviceUp tap else UpdateDeviceDown tap])
    | (Raised, w3, t) => port_update E C kw w = (Raised, w3, Listdir TAP_FS :: t)
    | (Exited, w3, t) => port_update E C kw w = (Exited, w3, Listdir TAP_FS :: t)
    end.
Proof.
  intros W E C kw port pid net mac ips up names w w1 w2.
  apply port_update_configures_then_reports.
Qed.

(** The port of [tapA] is set up. Where [arp -s] fails the update raises
    after three commands and sends no report, although every failure
    would count as a timeout. Where every command works and the report
    that the port is up fails, the update returns when the failure is a
    timeout and raises when it is not. *)
Lemma port_update_swallows_timeouts_witness :
  port_update arp_failure_callbacks no_firewall_trouble (update_of (port_A true)) tt
    = (Raised, tt,
       [Listdir TAP_FS;
        CallAddStaticRoute "tapA" [binding "10.65.0.2"] "fa:16:3e:00:00:01";
        Execute (route_add_cmd "10.65.0.2" "tapA");
        Execute (enable_proxy_arp_cmd "tapA");
        Execute (arp_add_cmd "10.65.0.2" "fa:16:3e:00:00:01")]) /\
  port_update report_timeout_callbacks no_firewall_trouble (update_of (port_A true)) tt
    = (Returned tt, tt,
       [Listdir TAP_FS;
        CallAddStaticRoute "tapA" [binding "10.65.0.2"] "fa:16:3e:00:00:01";
        Execute (route_add_cmd "10.65.0.2" "tapA");
        Execute (enable_proxy_arp_cmd "tapA");
        Execute (arp_add_cmd "10.65.0.2" "fa:16:3e:00:00:01");
        Execute (enable_local_routing_cmd "tapA");
        UpdateDeviceUp "tapA"]) /\
  port_update report_timeout_callbacks remote_error (update_of (port_A true)) tt
    = (Raised, tt,
       [Listdir TAP_FS;
        CallAddStaticRoute "tapA" [binding "10.65.0.2"] "fa:16:3e:00:00:01";
        Execute (route_add_cmd "10.65.0.2" "tapA");
        Execute (enable_proxy_arp_cmd "tapA");
        Execute (arp_add_cmd "10.65.0.2" "fa:16:3e:00:00:01");
        Execute (enable_local_routing_cmd "tapA");
        UpdateDeviceUp "tapA"]).
Proof.
  pose proof (port_update_swallows_timeouts unit arp_failure_callbacks
                no_firewall_trouble (update_of (port_A true)) (port_A true)
                "A" "net-1" "fa:16:3e:00:00:01" [binding "10.65.0.2"] true
                ["tapA"; "lo"] tt tt tt eq_refl eq_refl eq_refl (fun _ => eq_refl)
                eq_refl eq_refl eq_refl eq_refl (or_introl eq_refl) eq_refl) as H1.
  pose proof (port_update_swallows_timeouts unit report_timeout_callbacks
                no_firewall_trouble (update_of (port_A true)) (port_A true)
                "A" "net-1" "fa:16:3e:00:00:01" [binding "10.65.0.2"] true
                ["tapA"; "lo"] tt tt tt eq_refl eq_refl eq_refl (fun _ => eq_refl)
                eq_refl eq_refl eq_refl eq_refl (or_introl eq_refl) eq_refl) as H2.
  pose proof (port_update_swallows_timeouts unit report_timeout_callbacks
                remote_error (update_of (port_A true)) (port_A true)
                "A" "net-1" "fa:16:3e:00:00:01" [binding "10.65.0.2"] true
                ["tapA"; "lo"] tt tt tt eq_refl eq_refl eq_refl (fun _ => eq_refl)
                eq_refl eq_refl eq_refl eq_refl (or_introl eq_refl) eq_refl) as H3.
  split; [exact H1|]. split; [exact H2|exact H3].
Defined.

(** ** The heartbeat *)

(** X21. [_report_state] never raises and does nothing but list the
    devices and send the report. When the listing fails the state is left
    as it was. Otherwise the number of tap devices is written into the
    state and stays there; the report carries the start flag as it was,
    and the flag is dropped exactly when the report was delivered, so a
    start that could not be reported is reported again. *)
Theorem heartbeat_keeps_start_flag_until_delivered :
  forall (W : Type) (E : env W)
         (report : agent_state -> W -> option unit * W)
         (s : agent_state) (w : W),
    match listdir E TAP_FS w with
    | (None, w1) => _report_state E report s w = (Returned s, w1, [Listdir TAP_FS])
    | (Some names, w1) =>
        let n := size (list_to_set
                         (List.filter (String.prefix TAP_INTERFACE_PREFIX) names)
                       : gset string) in
        let sent := {| configurations_devices := Some n;
                       start_flag := start_flag s |} in
        match report sent w1 with
        | (Some _, w2) =>
            _report_state E report s w =
              (Returned {| configurations_devices := Some n; start_flag := false |},
               w2, [Listdir TAP_FS])
        | (None, w2) =>
            _report_state E report s w = (Returned sent, w2, [Listdir TAP_FS])
        end
    end.
Proof.
  intros W E report s w. unfold _report_state, bind, attempt, quiet_call.
  rewrite get_tap_devices_run.
  destruct (listdir E TAP_FS w) as [[names|] w1]; [|reflexivity].
  simpl. destruct (report _ w1) as [[[]|] w2]; reflexivity.
Qed.

(** ** The helper commands *)

Lemma prefix_short : forall hay needle,
  String.length hay < String.length needle -> String.prefix needle hay = false.
Proof.
  induction hay as [|c hay IH]; intros [|c' needle] Hlen; simpl in *;
    try lia; try reflexivity.
  destruct (ascii_dec c' c); [|reflexivity]. apply IH. lia.
Qed.

Lemma contains_short : forall hay needle,
  String.length hay < String.length needle -> contains needle hay = false.
Proof.
  induction hay as [|c hay IH]; intros needle Hlen.
  - cbn [contains]. rewrite prefix_short by exact Hlen. reflexivity.
  - cbn [contains]. rewrite prefix_short by exact Hlen. simpl.
    apply IH. simpl in Hlen. lia.
Qed.

Lemma contains_app_r needle : forall a b,
  contains needle b = true -> contains needle (a +:+ b) = true.
Proof.
  induction a as [|c a IH]; intros b Hb; [exact Hb|].
  simpl. rewrite (IH b Hb). apply orb_true_r.
Qed.

Lemma length_app_string : forall a b,
  String.length (a +:+ b) = String.length a + String.length b.
Proof. induction a as [|c a IH]; intros b; simpl; [reflexivity|]. rewrite IH. reflexivity. Qed.

Lemma progress_line_proxy_arp tap :
  String.length tap <= 14 ->
  contains "Enabled proxy arp" (printed ["Enabling proxy arp on " +:+ tap]) = false.
Proof.
  intros Hlen. unfold printed. simpl.
  apply contains_short. rewrite !length_app_string. unfold newline. simpl. lia.
Qed.

Lemma progress_line_local_routing tap :
  String.length tap <= 14 ->
  contains "Enabled local routing" (printed ["Enabling local routing on " +:+ tap]) = false.
Proof.
  intros Hlen. unfold printed. simpl.
  apply contains_short. rewrite !length_app_string. unfold newline. simpl. lia.
Qed.

Lemma success_line_proxy_arp a tap :
  contains "Enabled proxy arp" (printed [a; "Enabled proxy arp on " +:+ tap]) = true.
Proof.
  unfold printed. cbn [List.map String.concat].
  apply contains_app_r. apply contains_app_r. reflexivity.
Qed.

Lemma success_line_local_routing a tap :
  contains "Enabled local routing"
    (printed [a; "Enabled local routing on " +:+ tap]) = true.
Proof.
  unfold printed. cbn [List.map String.concat].
  apply contains_app_r. apply contains_app_r. reflexivity.
Qed.

(** X22. The enable helpers and the tests of [add_static_route] agree:
    run with a device name, the proxy-ARP helper exits with status zero
    and prints "Enabled proxy arp" exactly when its write to the control
    file succeeded, and the local-routing helper exits with status zero
    and prints "Enabled local routing" exactly when its write
    succeeded. *)
Theorem enable_helpers_pass_the_tests :
  forall (F : Type) (write : string -> string -> F -> option unit * F)
         (prog tap : string) (rest : list string) (fs : F),
    ((exit_zero (python_process (enable_proxy_arp write (prog :: tap :: rest) fs))
      && contains "Enabled proxy arp"
           (stdout (python_process (enable_proxy_arp write (prog :: tap :: rest) fs))))
     = true
     <-> (write (proxy_arp_file tap) "1" fs).1 = Some tt) /\
    ((exit_zero (python_process (enable_local_routing write (prog :: tap :: rest) fs))
      && contains "Enabled local routing"
           (stdout (python_process
                      (enable_local_routing write (prog :: tap :: rest) fs))))
     = true
     <-> (write (route_localnet_file tap) "1" fs).1 = Some tt).
Proof.
  intros F write prog tap rest fs.
  unfold enable_proxy_arp, enable_local_routing, toggle. cbn [nth_error].
  split.
  - destruct (write (proxy_arp_file tap) "1" fs) as [[[]|] fs1];
      unfold python_process; cbn [fst snd stdout returncode exit_zero].
    + rewrite success_line_proxy_arp. split; reflexivity.
    + split; discriminate.
  - destruct (write (route_localnet_file tap) "1" fs) as [[[]|] fs1];
      unfold python_process; cbn [fst snd stdout returncode exit_zero].
    + rewrite success_line_local_routing. split; reflexivity.
    + split; discriminate.
Qed.

(** X23. For a device name of at most fourteen characters, as
    [get_tap_device_name] makes them, what an enable helper printed tells
    by itself whether it succeeded: the line it prints before the write
    does not contain the text that [add_static_route] looks for, so the
    output contains that text exactly when the helper returned. *)
Theorem enable_helper_output_tells_success :
  forall (F : Type) (write : string -> string -> F -> option unit * F)
         (argv : list string) (tap : string) (fs : F),
    nth_error argv 1 = Some tap ->
    String.length tap <= 14 ->
    (contains "Enabled proxy arp"
       (stdout (python_process (enable_proxy_arp write argv fs))) = true
     <-> (enable_proxy_arp write argv fs).1.1 = Returned tt) /\
    (contains "Enabled local routing"
       (stdout (python_process (enable_local_routing write argv fs))) = true
     <-> (enable_local_routing write argv fs).1.1 = Returned tt).
Proof.
  intros F write argv tap fs Harg Hlen.
  unfold enable_proxy_arp, enable_local_routing, toggle. rewrite Harg. split.
  - destruct (write (proxy_arp_file tap) "1" fs) as [[[]|] fs1];
      unfold python_process; cbn [fst snd stdout].
    + rewrite success_line_proxy_arp. split; reflexivity.
    + rewrite (progress_line_proxy_arp tap Hlen). split; discriminate.
  - destruct (write (route_localnet_file tap) "1" fs) as [[[]|] fs1];
      unfold python_process; cbn [fst snd stdout].
    + rewrite success_line_local_routing. split; reflexivity.
    + rewrite (progress_line_local_routing tap Hlen). split; discriminate.
Qed.

(** The helper is run for [tapB], whose control file is not there: it
    raises, and its output does not contain the text. *)
Lemma enable_helper_output_tells_success_witness :
  contains "Enabled proxy arp"
    (stdout (python_process
               (enable_proxy_arp write_existing ["neutron-enable-proxy-arp"; "tapB"]
                  control_files_of_tapA))) = true
  <-> (enable_proxy_arp write_existing ["neutron-enable-proxy-arp"; "tapB"]
         control_files_of_tapA).1.1 = Returned tt.
Proof.
  apply (proj1 (enable_helper_output_tells_success _ write_existing
                  ["neutron-enable-proxy-arp"; "tapB"] "tapB"
                  control_files_of_tapA eq_refl ltac:(simpl; lia))).
Defined.

(** ** What a resync forgets *)

(** X24. An iteration that starts with the resync flag set treats no
    device as removed: the filter removal is called for the empty set
    only, and every device it reports down is one that the listing of
    this iteration shows (an added device whose configuration returned
    false), so a device that went away while the agent was out of sync is
    not reported down. *)
Theorem resync_reports_no_removal :
  forall (W : Type) (E : env W) (st : loop_state) (w : W),
    sync st = true ->
    Forall (fun e =>
              match e with
              | RemoveDevicesFilter devs => devs = ∅
              | UpdateDeviceDown d =>
                  exists names w1,
                    listdir E TAP_FS w = (Some names, w1) /\ In d names
              | _ => True
              end)
      (trace_of (daemon_loop_iteration E st w)).
Proof.
  intros W E st w Hs.
  destruct (listdir E TAP_FS w) as [[names|] w1] eqn:Hls.
  - set (B := list_to_set (List.filter (String.prefix TAP_INTERFACE_PREFIX) names)
              : gset string).
    destruct (decide (B = ∅)) as [He|Hne].
    + rewrite (iteration_no_delta E st w names w1 Hls).
      * repeat constructor.
      * fold B. rewrite He, (resync_clear_sync st Hs). reflexivity.
    + assert (Hup : update_devices E (devices (resync_clear st)) w
                    = (Returned (Some {| current := B; added := B; removed := ∅ |}),
                       w1, [Listdir TAP_FS])).
      { rewrite (update_devices_observed E _ w names w1 Hls).
        rewrite (resync_clear_sync st Hs). fold B.
        rewrite (device_delta_from_empty B Hne). reflexivity. }
      rewrite (iteration_with_delta E st w _ w1 _ Hup).
      assert (Hp : emits (fun e =>
                            match e with
                            | RemoveDevicesFilter devs => devs = ∅
                            | UpdateDeviceDown d =>
                                exists names0 w0,
                                  (Some names, w1) = (Some names0, w0) /\ In d names0
                            | _ => True
                            end)
                     (process_network_devices E
                        {| current := B; added := B; removed := ∅ |})).
      { unfold process_network_devices. simpl.
        apply emits_bind; [apply emits_treat_devices_added; auto|].
        - intros d Hd. repeat split.
          exists names, w1. split; [reflexivity|].
          apply elem_of_tap_filter in Hd. apply list_elem_of_In. tauto.
        - intros a. apply emits_bind; [|intros b; apply emits_ret].
          apply emits_treat_devices_removed; [reflexivity|].
          intros d Hd. apply elem_of_empty in Hd. contradiction. }
      specialize (Hp w1). unfold trace_of in *.
      destruct (process_network_devices E _ w1) as [[[r| |] w2] t2]; simpl in *;
        constructor; auto.
  - rewrite (iteration_discovery_failure E st w w1 Hls). repeat constructor.
Qed.

(** [tapD] went away while the agent was out of sync: the iteration
    reports [tapC] down, whose route could not be added, and not
    [tapD]. *)
Lemma resync_reports_no_removal_witness :
  List.filter is_report_down
    (trace_of (daemon_loop_iteration partial_failure_scenario
                 {| sync := true; devices := {[ "tapD" ]} |} tt))
    = [UpdateDeviceDown "tapC"] /\
  Forall (fun e =>
            match e with
            | RemoveDevicesFilter devs => devs = ∅
            | UpdateDeviceDown d =>
                exists names w1,
                  listdir partial_failure_scenario TAP_FS tt = (Some names, w1) /\
                  In d names
            | _ => True
            end)
    (trace_of (daemon_loop_iteration partial_failure_scenario
                 {| sync := true; devices := {[ "tapD" ]} |} tt)).
Proof.
  split; [vm_compute; reflexivity|].
  exact (resync_reports_no_removal unit partial_failure_scenario
           {| sync := true; devices := {[ "tapD" ]} |} tt eq_refl).
Defined.
